(** * PoetryNetPackets: the capture / buffer / drain pipeline of [main.py]

    A shallow embedding of [NetworkPoetryGenerator]: the record extractor
    [extract_packet_data], the prompt builder [craft_prompt], the generation
    client [generate_poetry], the archive and [save_archive], and the two
    cooperative tasks of [process_packets] as a labelled step relation whose
    steps are the blocks of code that run between two [await] points. *)

From Stdlib Require Import ZArith String Ascii List Lia DecimalString DecimalPos SpecFloat.
From stdpp Require Import base list strings.

Open Scope string_scope.
Open Scope list_scope.

(** ** Python values and exceptions *)

(** The exceptions the modelled code can raise; all of them are subclasses
    of [Exception], which is what the [except Exception] clauses catch. *)
Inductive exn :=
  | AttributeError (name : string)
  | KeyError (key : string)
  | TypeError (what : string)
  | ValueError (literal : string)
  | IndexError
  | ServiceError (what : string).

(** A computation that returns or raises. *)
Inductive result (A : Type) :=
  | Ok (a : A)
  | Raise (e : exn).
Arguments Ok {A} a.
Arguments Raise {A} e.

#[global] Instance result_ret : MRet result := fun A a => Ok a.
#[global] Instance result_bind : MBind result := fun A B f m =>
  match m with
  | Ok a => f a
  | Raise e => Raise e
  end.

(** [logging]: the records handed to [logger.error] and [logger.info];
    an error record keeps the caught exception that the message formats. *)
Inductive log_record :=
  | LogError (msg : string) (e : exn)
  | LogInfo (msg : string).

(** A Python [float]. *)
Abbreviation float := spec_float.

(** ** [str] helpers: [strip], [int(str)], [str(int)] *)

(** [str.isspace] on the ASCII range: TAB..CR, FS..US and the space. *)
Definition is_space (c : ascii) : bool :=
  let n := nat_of_ascii c in
  ((9 <=? n)%nat && (n <=? 13)%nat) || ((28 <=? n)%nat && (n <=? 32)%nat).

Fixpoint lstrip (s : string) : string :=
  match s with
  | String c s' => if is_space c then lstrip s' else s
  | EmptyString => EmptyString
  end.

Definition rstrip (s : string) : string := String.rev (lstrip (String.rev s)).

(** [s.strip()] *)
Definition strip (s : string) : string := lstrip (rstrip s).

Definition digit_of (c : ascii) : option Z :=
  let n := nat_of_ascii c in
  if (48 <=? n)%nat && (n <=? 57)%nat then Some (Z.of_nat (n - 48)) else None.

(** Decimal digits with single underscores between digits (PEP 515). *)
Fixpoint parse_digits (acc : Z) (after_digit : bool) (s : string) : option Z :=
  match s with
  | EmptyString => if after_digit then Some acc else None
  | String c s' =>
      match digit_of c with
      | Some d => parse_digits (10 * acc + d) true s'
      | None =>
          if Ascii.eqb c "_" && after_digit then parse_digits acc false s'
          else None
      end
  end.

(** [int(s)] for a [str] argument: surrounding white space is dropped, one
    sign is allowed, the rest must be decimal digits; anything else raises
    [ValueError]. Characters are ASCII here; the interpreter's cap on the
    number of digits is far beyond any packet field and is left out. *)
Definition py_int (s : string) : result Z :=
  let body := strip s in
  let parsed :=
    match body with
    | String "-" ds => Z.opp <$> parse_digits 0 false ds
    | String "+" ds => parse_digits 0 false ds
    | _ => parse_digits 0 false body
    end in
  match parsed with
  | Some z => Ok z
  | None => Raise (ValueError s)
  end.

(** [str(n)] for an [int]. *)
Definition py_str_int (n : Z) : string := NilZero.string_of_int (Z.to_int n).

(** [str(x)] for an [Optional[int]], as an f-string formats it. *)
Definition py_str_opt_int (x : option Z) : string :=
  match x with
  | Some n => py_str_int n
  | None => "None"
  end.

(** ** The captured packet, as [extract_packet_data] probes it *)

(** A layer object of the capture library: its fields by attribute name;
    the values are the strings the library delivers. *)
Definition Layer := list (string * string).

Fixpoint assoc {A : Type} (k : string) (l : list (string * A)) : option A :=
  match l with
  | [] => None
  | (k', v) :: l' => if String.eqb k k' then Some v else assoc k l'
  end.

(** [layer.<name>] *)
Definition getattr (l : Layer) (name : string) : result string :=
  match assoc name l with
  | Some v => Ok v
  | None => Raise (AttributeError name)
  end.

(** [getattr(layer, name, None)] *)
Definition getattr_default (l : Layer) (name : string) : option string :=
  assoc name l.

Module Packet.
(** The packet object as far as the extractor looks at it. The outer
    [option] of [ip], [transport_layer] and [length] says whether the
    object has the attribute at all ([hasattr]); a [transport_layer] that
    is there holds a [str] or Python's [None]; [layers] is what
    [packet[key]] looks up. *)
Record t := mk {
  ip : option Layer;
  transport_layer : option (option string);
  length : option string;
  layers : list (string * Layer)
}.
End Packet.

(** [packet[key]]: a key that names no layer of the packet raises, and so
    does the key [None]. *)
Definition getitem (packet : Packet.t) (key : option string) : result Layer :=
  match key with
  | None => Raise (TypeError "layer key")
  | Some k =>
      match assoc k (Packet.layers packet) with
      | Some l => Ok l
      | None => Raise (KeyError k)
      end
  end.

Module PacketData.
Record t := mk {
  src_ip : string;
  dest_ip : string;
  protocol : string;
  length : Z;
  timestamp : float;
  port_src : option Z;
  port_dst : option Z;
  flags : option string
}.
End PacketData.

Definition Unknown : string := "Unknown".

(** ** [extract_packet_data] *)

(** The body of the [try] block (main.py, lines 63-90). [now] is the value
    of [time.time()]. *)
Definition extract_body (packet : Packet.t) (now : float) : result PacketData.t :=
  src_ip ← match Packet.ip packet with
           | Some l => getattr l "src"
           | None => Ok Unknown
           end;
  dest_ip ← match Packet.ip packet with
            | Some l => getattr l "dst"
            | None => Ok Unknown
            end;
  let protocol := match Packet.transport_layer packet with
                  | Some v => v
                  | None => Some Unknown
                  end in
  length ← match Packet.length packet with
           | Some s => py_int s
           | None => Raise (AttributeError "length")
           end;
  let timestamp := now in
  '(port_src, port_dst, flags) ←
    (if decide (protocol ≠ Some Unknown) then
       port_src ← (getitem packet protocol ≫= λ layer, getattr layer "srcport") ≫= py_int;
       port_dst ← (getitem packet protocol ≫= λ layer, getattr layer "dstport") ≫= py_int;
       flags ← (getitem packet protocol ≫= λ layer, Ok (getattr_default layer "flags"));
       Ok (Some port_src, Some port_dst, flags)
     else Ok (None, None, None));
  (* [packet[None]] has raised by now, so [protocol] holds a [str] here *)
  Ok (PacketData.mk src_ip dest_ip (default Unknown protocol) length timestamp
        port_src port_dst flags).

(** The whole method, with its [except Exception] clause: the result and
    the log records it emits. *)
Definition extract_packet_data (packet : Packet.t) (now : float)
  : option PacketData.t * list log_record :=
  match extract_body packet now with
  | Ok r => (Some r, [])
  | Raise e => (None, [LogError "Error extracting packet data: " e])
  end.

(** ** The three reads of the extractor, one by one

    [extract_body] reads the addresses, then the length, then the
    transport fields; the lemma [extract_body_reads] below puts it back
    together from these. *)

Definition read_addresses (packet : Packet.t) : result (string * string) :=
  match Packet.ip packet with
  | Some l => src_ip ← getattr l "src"; dest_ip ← getattr l "dst"; Ok (src_ip, dest_ip)
  | None => Ok (Unknown, Unknown)
  end.

Definition read_length (packet : Packet.t) : result Z :=
  match Packet.length packet with
  | Some s => py_int s
  | None => Raise (AttributeError "length")
  end.

Record transport_fields := mk_transport {
  tf_protocol : string;
  tf_port_src : option Z;
  tf_port_dst : option Z;
  tf_flags : option string
}.

Definition read_ports (proto : string) (layer : Layer) : result transport_fields :=
  port_src ← getattr layer "srcport" ≫= py_int;
  port_dst ← getattr layer "dstport" ≫= py_int;
  Ok (mk_transport proto (Some port_src) (Some port_dst) (getattr_default layer "flags")).

Definition read_transport (packet : Packet.t) : result transport_fields :=
  match Packet.transport_layer packet with
  | None => Ok (mk_transport Unknown None None None)
  | Some None => Raise (TypeError "layer key")
  | Some (Some proto) =>
      if decide (proto = Unknown) then Ok (mk_transport Unknown None None None)
      else match assoc proto (Packet.layers packet) with
           | Some layer => read_ports proto layer
           | None => Raise (KeyError proto)
           end
  end.

Definition assemble (now : float) (addresses : string * string) (length : Z)
    (tf : transport_fields) : PacketData.t :=
  PacketData.mk (fst addresses) (snd addresses) (tf_protocol tf) length now
    (tf_port_src tf) (tf_port_dst tf) (tf_flags tf).

(** ** [PoetryStyle] and [craft_prompt] *)

Inductive PoetryStyle := PESSOA | WHITMAN | DICKINSON.

(** [style.value] *)
Definition style_value (style : PoetryStyle) : string :=
  match style with
  | PESSOA => "pessoa"
  | WHITMAN => "whitman"
  | DICKINSON => "dickinson"
  end.

(** [chr(10)] *)
Definition nl : string := String (ascii_of_nat 10) EmptyString.

(** The triple-quoted preambles, line by line as the source lays them out. *)
Definition base_context (style : PoetryStyle) : string :=
  match style with
  | PESSOA =>
      nl +:+ "                Channel the introspective, philosophical voice of Fernando Pessoa's heteronyms."
      +:+ nl +:+ "                Contemplate each packet as a fleeting moment of consciousness traversing the ether."
      +:+ nl +:+ "                Reflect on the metaphysical nature of data moving through intangible spaces."
      +:+ nl +:+ "            "
  | WHITMAN =>
      nl +:+ "                Embrace Walt Whitman's grand, expansive style."
      +:+ nl +:+ "                Treat each packet as part of a cosmic tapestry of modern life."
      +:+ nl +:+ "                Weave the digital flow into humanity's universal song."
      +:+ nl +:+ "            "
  | DICKINSON =>
      nl +:+ "                Employ Emily Dickinson's delicate yet potent verse."
      +:+ nl +:+ "                Observe the micro-moments of transmission with a keen, almost reverent eye."
      +:+ nl +:+ "                Harness unusual punctuation and subtle metaphor to illuminate digital rhythms."
      +:+ nl +:+ "            "
  end.

(** The f-string that describes one packet. *)
Definition description (packet : PacketData.t) : string :=
  "Data from " +:+ PacketData.src_ip packet +:+ ":"
    +:+ py_str_opt_int (PacketData.port_src packet) +:+ " "
  +:+ "to " +:+ PacketData.dest_ip packet +:+ ":"
    +:+ py_str_opt_int (PacketData.port_dst packet) +:+ ", "
  +:+ py_str_int (PacketData.length packet) +:+ " bytes via "
    +:+ PacketData.protocol packet +:+ ".".

Definition packet_descriptions (packets : list PacketData.t) : list string :=
  map description packets.

Definition prompt_head (style : PoetryStyle) : string :=
  nl +:+ "        " +:+ base_context style
  +:+ nl
  +:+ nl +:+ "        Consider the following network movements:"
  +:+ nl +:+ "        ".

Definition prompt_tail (style : PoetryStyle) : string :=
  nl
  +:+ nl +:+ "        Transform these digital flows into a poem in the style of "
         +:+ style_value style +:+ "."
  +:+ nl +:+ "        Contemplate the symbolic meaning of packets dancing between nodes and"
  +:+ nl +:+ "        the resonance of ephemeral data in our digital consciousness."
  +:+ nl +:+ "        ".

Definition craft_prompt (packets : list PacketData.t) (style : PoetryStyle) : string :=
  prompt_head style
  +:+ String.concat nl (packet_descriptions packets)
  +:+ prompt_tail style.

(** ** [generate_poetry] *)

(** What the completion service hands back: the [text] of each element of
    [response.choices] ([None] when a choice carries no text). *)
Definition Response := list (option string).

Definition fallback_poetry : string := "Error generating poetic response".

(** The body of the [try] block; [outcome] is what the awaited
    [completions.create(model, prompt, max_tokens, temperature)] call
    does: it returns a response or raises. *)
Definition generate_body (outcome : result Response) : result string :=
  response ← outcome;
  choice ← match response with
           | c :: _ => Ok c
           | [] => Raise IndexError
           end;
  text ← match choice with
         | Some t => Ok t
         | None => Raise (AttributeError "strip")
         end;
  Ok (strip text).

Definition generate_poetry (prompt : string) (outcome : result Response)
  : string * list log_record :=
  match generate_body outcome with
  | Ok poetry => (poetry, [])
  | Raise e => (fallback_poetry, [LogError "Error generating poetry: " e])
  end.

(** ** Python data, [dict]s and the archive *)

(** The values that reach the archive and [json.dump]. A [dict] with [str]
    keys is the list of its items in insertion order. *)
#[warnings="-register-all"]
Inductive pyval :=
  | PyNone
  | PyInt (n : Z)
  | PyFloat (x : float)
  | PyStr (s : string)
  | PyList (l : list pyval)
  | PyDict (d : list (string * pyval)).

Definition py_opt_int (x : option Z) : pyval :=
  match x with Some n => PyInt n | None => PyNone end.

Definition py_opt_str (x : option string) : pyval :=
  match x with Some s => PyStr s | None => PyNone end.

(** [d[k] = v]: an existing key keeps its place and gets the new value, a
    new key goes to the end. *)
Fixpoint dict_set {A : Type} (k : string) (v : A) (d : list (string * A))
  : list (string * A) :=
  match d with
  | [] => [(k, v)]
  | (k', v') :: d' =>
      if String.eqb k k' then (k', v) :: d' else (k', v') :: dict_set k v d'
  end.

(** [d.get(k)] *)
Definition dict_get {A : Type} (k : string) (d : list (string * A)) : option A :=
  assoc k d.

Definition dict_keys {A : Type} (d : list (string * A)) : list string := map fst d.

(** [{k: v for k, v in items}]: the items are stored one after the other. *)
Definition dict_of_items {A : Type} (items : list (string * A)) : list (string * A) :=
  fold_left (fun d kv => dict_set (fst kv) (snd kv) d) items [].

(** [vars(p)] for a [PacketData]. *)
Definition vars (p : PacketData.t) : list (string * pyval) :=
  [ ("src_ip", PyStr (PacketData.src_ip p));
    ("dest_ip", PyStr (PacketData.dest_ip p));
    ("protocol", PyStr (PacketData.protocol p));
    ("length", PyInt (PacketData.length p));
    ("timestamp", PyFloat (PacketData.timestamp p));
    ("port_src", py_opt_int (PacketData.port_src p));
    ("port_dst", py_opt_int (PacketData.port_dst p));
    ("flags", py_opt_str (PacketData.flags p)) ].

Module PoetryArchiveEntry.
Record t := mk {
  poetry : string;
  packets : list (list (string * pyval));
  style : string;
  generated_at : string
}.
End PoetryArchiveEntry.

(** [Dict[str, PoetryArchiveEntry]] *)
Definition Archive := list (string * PoetryArchiveEntry.t).

(** ** [json.dump] and the persisted artifact *)

(** A JSON document. *)
#[warnings="-register-all"]
Inductive json :=
  | JNull
  | JInt (n : Z)
  | JReal (x : float)
  | JString (s : string)
  | JArray (items : list json)
  | JObject (members : list (string * json)).

(** The document [json.dump] writes for a value: [dict] to object, [list]
    to array, [str] to string, [int] and [float] to number, [None] to
    null; the members keep the order of the [dict]. *)
Fixpoint json_dump (v : pyval) : json :=
  match v with
  | PyNone => JNull
  | PyInt n => JInt n
  | PyFloat x => JReal x
  | PyStr s => JString s
  | PyList l => JArray (map json_dump l)
  | PyDict d => JObject (map (fun kv => (fst kv, json_dump (snd kv))) d)
  end.

(** The entry as [save_archive] lays it out. *)
Definition entry_dict (entry : PoetryArchiveEntry.t) : pyval :=
  PyDict [ ("poetry", PyStr (PoetryArchiveEntry.poetry entry));
           ("packets", PyList (map PyDict (PoetryArchiveEntry.packets entry)));
           ("style", PyStr (PoetryArchiveEntry.style entry));
           ("generated_at", PyStr (PoetryArchiveEntry.generated_at entry)) ].

(** The dict comprehension of [save_archive]. *)
Definition archive_dict (poetry_archive : Archive) : list (string * pyval) :=
  dict_of_items (map (fun item => (fst item, entry_dict (snd item))) poetry_archive).

(** [save_archive]: [io] is what opening and writing the file does; the
    result is the document now in [network_poetry_archive.json] (if one was
    written) and the log records. *)
Definition save_archive (poetry_archive : Archive) (io : result unit)
  : option json * list log_record :=
  match io with
  | Ok _ =>
      (Some (json_dump (PyDict (archive_dict poetry_archive))),
       [LogInfo "Poetry archive saved successfully."])
  | Raise e => (None, [LogError "Error saving poetry archive: " e])
  end.

(** Modelled from the spec: reloading the persisted artifact. The source
    has no loader; the spec's round trip reads the single structured file
    back into a mapping from generation timestamp to
    [{poetry, packets, style, generated_at}]. This is [json.load]: object
    to [dict] (a repeated member name keeps the last value), array to
    [list], string to [str], number to [int] or [float], null to [None]. *)
Fixpoint json_load (j : json) : pyval :=
  match j with
  | JNull => PyNone
  | JInt n => PyInt n
  | JReal x => PyFloat x
  | JString s => PyStr s
  | JArray items => PyList (map json_load items)
  | JObject members =>
      PyDict (dict_of_items (map (fun kv => (fst kv, json_load (snd kv))) members))
  end.

(** ** [process_packets]: the producer loop and [buffer_processor]

    Both run on one event loop, so control changes hands only at an
    [await]. A step of the model is one block of code between two awaits:
    an iteration of the capture loop, the consumer waking up from
    [asyncio.sleep(1)], the consumer resuming after
    [await self.generate_poetry(prompt)], and the shutdown path. *)

(** Where [buffer_processor] is suspended. *)
Inductive consumer_state :=
  | AtSleep
  | AtGenerate (prompt : string).

Record state := mk_state {
  packet_buffer : list PacketData.t;
  poetry_archive : Archive;
  consumer : consumer_state;
  running : bool;
  log : list log_record
}.

(** [NetworkPoetryGenerator.__init__] followed by [create_task]. *)
Definition init : state := mk_state [] [] AtSleep true [].

(** What a step does, as an observer of the pipeline sees it. *)
Inductive event :=
  | Appended (record : PacketData.t)
  | Dropped
  | Idle
  | Dispatched (batch : list PacketData.t) (prompt : string)
  | Archived (entry : PoetryArchiveEntry.t)
  | Saved (artifact : option json).

Definition threshold : nat := 5.

Section Pipeline.
Variable style : PoetryStyle.

(** One iteration of the capture loop, up to its [await asyncio.sleep(0.1)]. *)
Definition producer_iteration (s : state) (packet : Packet.t) (now : float)
  : state * event :=
  let '(packet_data, logs) := extract_packet_data packet now in
  match packet_data with
  | Some r =>
      (mk_state (packet_buffer s ++ [r]) (poetry_archive s) (consumer s)
         (running s) (log s ++ logs),
       Appended r)
  | None =>
      (mk_state (packet_buffer s) (poetry_archive s) (consumer s)
         (running s) (log s ++ logs),
       Dropped)
  end.

(** [buffer_processor] from the top of its loop to the next await: below
    the threshold it goes back to sleep, otherwise it builds the prompt
    and suspends in [generate_poetry]. *)
Definition consumer_wakeup (s : state) : state * event :=
  if (threshold <=? length (packet_buffer s))%nat then
    let prompt := craft_prompt (packet_buffer s) style in
    (mk_state (packet_buffer s) (poetry_archive s) (AtGenerate prompt)
       (running s) (log s),
     Dispatched (packet_buffer s) prompt)
  else (s, Idle).

(** [buffer_processor] from the return of [generate_poetry] to
    [asyncio.sleep(1)]: [outcome] is what the service call did,
    [now_iso] is [datetime.now().isoformat()]. *)
Definition consumer_resume (s : state) (prompt : string)
    (outcome : result Response) (now_iso : string) : state * event :=
  let '(poetry, logs) := generate_poetry prompt outcome in
  let archive_entry :=
    PoetryArchiveEntry.mk poetry (map vars (packet_buffer s))
      (style_value style) now_iso in
  (mk_state []
     (dict_set (PoetryArchiveEntry.generated_at archive_entry) archive_entry
        (poetry_archive s))
     AtSleep (running s)
     (log s ++ logs
        ++ [LogInfo (nl +:+ "--- New Poetry Generated at " +:+ now_iso +:+ " ---"
                     +:+ nl +:+ poetry +:+ nl)]),
   Archived archive_entry).

(** The capture loop ends; the [finally] clause saves the archive and
    the program winds down. *)
Definition shutdown (s : state) (io : result unit) : state * event :=
  let '(artifact, logs) := save_archive (poetry_archive s) io in
  (mk_state (packet_buffer s) (poetry_archive s) (consumer s) false
     (log s ++ logs),
   Saved artifact).

Inductive step : state -> event -> state -> Prop :=
  | step_producer s packet now :
      running s = true ->
      step s (snd (producer_iteration s packet now))
             (fst (producer_iteration s packet now))
  | step_wakeup s :
      running s = true -> consumer s = AtSleep ->
      step s (snd (consumer_wakeup s)) (fst (consumer_wakeup s))
  | step_resume s prompt outcome now_iso :
      running s = true -> consumer s = AtGenerate prompt ->
      step s (snd (consumer_resume s prompt outcome now_iso))
             (fst (consumer_resume s prompt outcome now_iso))
  | step_shutdown s io :
      running s = true ->
      step s (snd (shutdown s io)) (fst (shutdown s io)).

(** The scheduler's choices, and the step each one runs if it is
    enabled: the executable reading of [step]. *)
Inductive action :=
  | Capture (packet : Packet.t) (now : float)
  | Wake
  | Resume (outcome : result Response) (now_iso : string)
  | Stop (io : result unit).

Definition perform (s : state) (a : action) : option (state * event) :=
  if running s then
    match a, consumer s with
    | Capture packet now, _ => Some (producer_iteration s packet now)
    | Wake, AtSleep => Some (consumer_wakeup s)
    | Resume outcome now_iso, AtGenerate prompt =>
        Some (consumer_resume s prompt outcome now_iso)
    | Stop io, _ => Some (shutdown s io)
    | _, _ => None
    end
  else None.

Fixpoint perform_all (s : state) (actions : list action)
  : option (state * list event) :=
  match actions with
  | [] => Some (s, [])
  | a :: actions' =>
      match perform s a with
      | Some (s', e) =>
          match perform_all s' actions' with
          | Some (s'', tr) => Some (s'', e :: tr)
          | None => None
          end
      | None => None
      end
  end.

(** A run and the events it shows, oldest first. *)
Inductive run : state -> list event -> state -> Prop :=
  | run_nil s : run s [] s
  | run_cons s e s' tr s'' : step s e s' -> run s' tr s'' -> run s (e :: tr) s''.

Definition reachable (s : state) : Prop := exists tr, run init tr s.

(** The records the producer appended in a stretch of events. *)
Fixpoint appended (tr : list event) : list PacketData.t :=
  match tr with
  | [] => []
  | Appended r :: tr' => r :: appended tr'
  | _ :: tr' => appended tr'
  end.

Definition producer_event (e : event) : bool :=
  match e with
  | Appended _ | Dropped => true
  | _ => false
  end.

Definition poll_event (e : event) : bool :=
  match e with
  | Idle | Dispatched _ _ => true
  | _ => false
  end.
End Pipeline.

(** ** Invariants of the pipeline *)

(** Every item of the archive sits under its own [generated_at]. *)
Definition keys_consistent (archive : Archive) : Prop :=
  forall k entry, (k, entry) ∈ archive -> PoetryArchiveEntry.generated_at entry = k.

(** The same for the persisted document. *)
Definition json_keys_consistent (doc : json) : Prop :=
  exists members,
    doc = JObject members
    /\ forall k j, (k, j) ∈ members ->
         exists fields, j = JObject fields
                        /\ assoc "generated_at" fields = Some (JString k).

(** A value is a Python value when none of its dicts repeats a key. *)
Fixpoint pyval_wf (v : pyval) : Prop :=
  match v with
  | PyList l => (fix all (l : list pyval) : Prop :=
                   match l with
                   | [] => True
                   | x :: l' => pyval_wf x /\ all l'
                   end) l
  | PyDict d => NoDup (dict_keys d)
                /\ (fix all (d : list (string * pyval)) : Prop :=
                      match d with
                      | [] => True
                      | kv :: d' => pyval_wf (snd kv) /\ all d'
                      end) d
  | _ => True
  end.

(** The archive is a Python dict of entries whose packets are Python dicts. *)
Definition archive_wf (archive : Archive) : Prop :=
  NoDup (dict_keys archive)
  /\ forall k entry, (k, entry) ∈ archive ->
       pyval_wf (PyList (map PyDict (PoetryArchiveEntry.packets entry))).

Definition invariant (s : state) : Prop :=
  archive_wf (poetry_archive s)
  /\ keys_consistent (poetry_archive s)
  /\ forall prompt, consumer s = AtGenerate prompt ->
       threshold <= length (packet_buffer s).

(** ** Failures of the extractor and lines of the prompt *)

(** [int(s)] succeeds on [s]. *)
Definition int_literal (s : string) : bool :=
  match py_int s with
  | Ok _ => true
  | Raise _ => false
  end.

(** A field that [int(...)] cannot read: it is missing or not an integer. *)
Definition unreadable_int (field : option string) : Prop :=
  match field with
  | Some s => int_literal s = false
  | None => True
  end.

#[global] Instance unreadable_int_dec field : Decision (unreadable_int field).
Proof. destruct field; simpl; apply _. Defined.

(** The transport layer that [extract_packet_data] resolves, if any: the
    label is present, is not the sentinel and names a layer of the packet. *)
Definition resolved_layer (packet : Packet.t) (proto : string) (layer : Layer) : Prop :=
  Packet.transport_layer packet = Some (Some proto)
  /\ proto <> Unknown
  /\ assoc proto (Packet.layers packet) = Some layer.

(** Everything that makes the [try] block of the extractor raise. *)
Inductive extraction_failure (packet : Packet.t) : Prop :=
  | fail_address l :
      Packet.ip packet = Some l ->
      assoc "src" l = None \/ assoc "dst" l = None ->
      extraction_failure packet
  | fail_length :
      unreadable_int (Packet.length packet) ->
      extraction_failure packet
  | fail_label_none :
      Packet.transport_layer packet = Some None ->
      extraction_failure packet
  | fail_layer proto :
      Packet.transport_layer packet = Some (Some proto) ->
      proto <> Unknown ->
      assoc proto (Packet.layers packet) = None ->
      extraction_failure packet
  | fail_port proto layer :
      resolved_layer packet proto layer ->
      unreadable_int (assoc "srcport" layer) \/ unreadable_int (assoc "dstport" layer) ->
      extraction_failure packet.

(** The failures as the specification lists them: a missing or non-integer
    length, and, once the protocol is resolved, a missing or non-integer
    port or missing flags. *)
Definition listed_failure (packet : Packet.t) : Prop :=
  unreadable_int (Packet.length packet)
  \/ exists proto layer,
       resolved_layer packet proto layer
       /\ (unreadable_int (assoc "srcport" layer)
           \/ unreadable_int (assoc "dstport" layer)
           \/ assoc "flags" layer = None).

(** The line of a record with its absent ports left out, in the two
    readings of "omitted": without the colon, or with it. *)
Definition port_omitted (colon : string) (x : option Z) : string :=
  match x with
  | Some n => ":" +:+ py_str_int n
  | None => colon
  end.

Definition description_ports_omitted (colon : string) (packet : PacketData.t) : string :=
  "Data from " +:+ PacketData.src_ip packet
    +:+ port_omitted colon (PacketData.port_src packet)
  +:+ " to " +:+ PacketData.dest_ip packet
    +:+ port_omitted colon (PacketData.port_dst packet)
  +:+ ", " +:+ py_str_int (PacketData.length packet)
  +:+ " bytes via " +:+ PacketData.protocol packet +:+ ".".

(** [s.endswith(suffix)] *)
Definition endswith (s suffix : string) : Prop := exists front, s = front +:+ suffix.

(** ** The concurrency properties as the specification words them *)

(** The batch a drain archives is the buffer as it was when the drain took
    it (when the prompt was built), whatever the producer appends while the
    generation is in flight. *)
Definition frozen_snapshot_claim (style : PoetryStyle) : Prop :=
  forall s batch prompt s1 tr s2 entry s3,
    reachable style s ->
    step style s (Dispatched batch prompt) s1 ->
    run style s1 tr s2 ->
    forallb producer_event tr = true ->
    step style s2 (Archived entry) s3 ->
    PoetryArchiveEntry.packets entry = map vars batch.

(** A drain happens at size 5 exactly: the batch has 5 records and the
    buffer is empty afterwards. *)
Definition exact_threshold_claim (style : PoetryStyle) : Prop :=
  forall s, reachable style s ->
    (forall batch prompt s',
       step style s (Dispatched batch prompt) s' -> length batch = threshold)
    /\ (forall entry s',
          step style s (Archived entry) s' ->
          length (PoetryArchiveEntry.packets entry) = threshold
          /\ packet_buffer s' = []).

(** The consumer goes on polling while a generation is in flight. *)
Definition polls_during_generation_claim (style : PoetryStyle) : Prop :=
  forall s prompt,
    reachable style s -> running s = true -> consumer s = AtGenerate prompt ->
    exists e s', poll_event e = true /\ step style s e s'.

(** ** Sample packets and records *)

Definition t0 : float := S754_zero false.

(** A UDP datagram over IPv6: no [ip] layer, ports, no flags. *)
Definition udp6_packet : Packet.t :=
  Packet.mk None (Some (Some "UDP")) (Some "60")
    [("UDP", [("srcport", "53"); ("dstport", "5353")])].

Definition udp6_record : PacketData.t :=
  PacketData.mk "Unknown" "Unknown" "UDP" 60 t0 (Some 53%Z) (Some 5353%Z) None.

(** A frame with neither network nor transport layer. *)
Definition bare_packet : Packet.t := Packet.mk None None (Some "42") [].

Definition bare_record : PacketData.t :=
  PacketData.mk "Unknown" "Unknown" "Unknown" 42 t0 None None None.

(** A TCP segment whose source port is not a number. *)
Definition bad_port_packet : Packet.t :=
  Packet.mk (Some [("src", "10.0.0.1"); ("dst", "10.0.0.2")]) (Some (Some "TCP"))
    (Some "1500") [("TCP", [("srcport", "http"); ("dstport", "80"); ("flags", "0x0010")])].

(** ** Sample schedules *)

Definition poem : result Response := Ok [Some "Packets drift, unnamed."].

Definition five_captures : list action := replicate 5 (Capture bare_packet t0).

(** Five packets, the consumer wakes up and dispatches, a sixth packet
    arrives while the generation is in flight, the generation returns. *)
Definition race_schedule : list action :=
  five_captures ++ [Wake; Capture udp6_packet t0; Resume poem "2024-05-01T12:00:00.000001"].

(** Six packets arrive between two polls. *)
Definition burst_schedule : list action :=
  replicate 6 (Capture bare_packet t0) ++ [Wake].

(** The states these schedules go through. *)
Definition five_buffered : state :=
  mk_state (replicate 5 bare_record) [] AtSleep true [].

Definition five_in_flight : state :=
  mk_state (replicate 5 bare_record) []
    (AtGenerate (craft_prompt (replicate 5 bare_record) PESSOA)) true [].

Definition six_in_flight : state :=
  mk_state (replicate 5 bare_record ++ [udp6_record]) []
    (AtGenerate (craft_prompt (replicate 5 bare_record) PESSOA)) true [].

Definition six_buffered : state :=
  mk_state (replicate 6 bare_record) [] AtSleep true [].

(** [v[k]] for a value that is a dict. *)
Definition py_getitem (v : pyval) (k : string) : option pyval :=
  match v with
  | PyDict d => dict_get k d
  | _ => None
  end.

(** The state a schedule leads to from [init] (and [init] itself when the
    schedule cannot run). *)
Definition state_after (style : PoetryStyle) (actions : list action) : state :=
  match perform_all style init actions with
  | Some (s, _) => s
  | None => init
  end.

Definition noon : string := "2024-05-01T12:00:00.000001".

(** Two drains, of five bare frames and of five UDP datagrams, whose
    timestamps coincide. *)
Definition first_drain : list action := five_captures ++ [Wake].

Definition second_drain : list action :=
  replicate 5 (Capture udp6_packet t0) ++ [Wake].

Definition entry_bare : PoetryArchiveEntry.t :=
  PoetryArchiveEntry.mk "Packets drift, unnamed."
    (map vars (replicate 5 bare_record)) "pessoa" noon.

Definition entry_udp6 : PoetryArchiveEntry.t :=
  PoetryArchiveEntry.mk fallback_poetry
    (map vars (replicate 5 udp6_record)) "pessoa" noon.

(** ** What a run shows of the drains *)

(** The packets of the entries that a stretch of events archived, oldest
    entry first, laid end to end. *)
Fixpoint archived_packets (tr : list event) : list (list (string * pyval)) :=
  match tr with
  | [] => []
  | Archived entry :: tr' => PoetryArchiveEntry.packets entry ++ archived_packets tr'
  | _ :: tr' => archived_packets tr'
  end.

(** The entry that a stretch of events archived last under the key [k]. *)
Fixpoint last_archived (k : string) (tr : list event) : option PoetryArchiveEntry.t :=
  match tr with
  | [] => None
  | e :: tr' =>
      match last_archived k tr', e with
      | Some entry, _ => Some entry
      | None, Archived entry =>
          if String.eqb (PoetryArchiveEntry.generated_at entry) k then Some entry
          else None
      | None, _ => None
      end
  end.


(** The events a schedule shows from [init] (none when it cannot run). *)
Definition events_after (style : PoetryStyle) (actions : list action) : list event :=
  match perform_all style init actions with
  | Some (_, tr) => tr
  | None => []
  end.

(** Two drains with one timestamp: five bare frames and a poem, then five
    UDP datagrams and a time-out. *)
Definition colliding_drains : list action :=
  first_drain ++ [Resume poem noon] ++ second_drain
  ++ [Resume (Raise (ServiceError "timeout")) noon].

(** What every entry of the archive looks like: at least [threshold]
    packets, each the field map of a record, and the style of the run. *)
Definition entry_shape (style : PoetryStyle) (entry : PoetryArchiveEntry.t) : Prop :=
  PoetryArchiveEntry.style entry = style_value style
  /\ threshold <= length (PoetryArchiveEntry.packets entry)
  /\ exists records, PoetryArchiveEntry.packets entry = map vars records.

(** A TCP segment over IPv4, with flags. *)
Definition tcp4_packet : Packet.t :=
  Packet.mk (Some [("src", "10.0.0.1"); ("dst", "10.0.0.2")]) (Some (Some "TCP"))
    (Some "1500") [("TCP", [("srcport", "443"); ("dstport", "51000"); ("flags", "0x0018")])].

Definition tcp4_record : PacketData.t :=
  PacketData.mk "10.0.0.1" "10.0.0.2" "TCP" 1500 t0 (Some 443%Z) (Some 51000%Z)
    (Some "0x0018").

(** ** White space at the ends of a string *)




(** ** Decimal numerals *)


(** ** Counting drains *)

Definition is_archived (e : event) : bool :=
  match e with
  | Archived _ => true
  | _ => false
  end.

Definition is_dispatched (e : event) : bool :=
  match e with
  | Dispatched _ _ => true
  | _ => false
  end.

(** The number of generations in flight: one when the consumer is
    suspended in [generate_poetry], none when it sleeps. *)
Definition in_flight (s : state) : nat :=
  match consumer s with
  | AtGenerate _ => 1
  | AtSleep => 0
  end.

(** * Properties *)

(** ** The extractor *)

Example extract_udp6 :
  extract_packet_data udp6_packet t0 = (Some udp6_record, []).
Proof. reflexivity. Qed.

Example extract_bare :
  extract_packet_data bare_packet t0 = (Some bare_record, []).
Proof. reflexivity. Qed.

Example extract_bad_port :
  extract_packet_data bad_port_packet t0
  = (None, [LogError "Error extracting packet data: " (ValueError "http")]).
Proof. reflexivity. Qed.

Example py_int_examples :
  py_int " 42 " = Ok 42%Z /\ py_int "-7" = Ok (-7)%Z /\ py_int "1_000" = Ok 1000%Z
  /\ py_int "" = Raise (ValueError "") /\ py_int "4 2" = Raise (ValueError "4 2")
  /\ py_int "0x10" = Raise (ValueError "0x10") /\ py_int "1__0" = Raise (ValueError "1__0").
Proof. repeat split. Qed.

Lemma int_literal_Ok s : int_literal s = true -> exists z, py_int s = Ok z.
Proof. unfold int_literal. destruct (py_int s); [eauto | discriminate]. Qed.

Lemma int_literal_Raise s : int_literal s = false -> exists e, py_int s = Raise e.
Proof. unfold int_literal. destruct (py_int s); [discriminate | eauto]. Qed.

Lemma unreadable_int_spec field :
  unreadable_int field <->
  forall s, field = Some s -> exists e, py_int s = Raise e.
Proof.
  destruct field as [s|]; simpl; split.
  - intros H s' [= <-]. now apply int_literal_Raise.
  - intros H. destruct (H s eq_refl) as [e He].
    unfold int_literal. now rewrite He.
  - intros _ s [=].
  - trivial.
Qed.

(** Reading a field with [int(layer.<name>)]. *)
Lemma read_port_Raise layer name :
  unreadable_int (assoc name layer) -> exists e, getattr layer name ≫= py_int = Raise e.
Proof.
  unfold getattr. destruct (assoc name layer) as [s|]; simpl.
  - apply int_literal_Raise.
  - eauto.
Qed.

Lemma read_port_Ok layer name :
  ~ unreadable_int (assoc name layer) -> exists z, getattr layer name ≫= py_int = Ok z.
Proof.
  unfold getattr. destruct (assoc name layer) as [s|]; simpl.
  - intros H. apply int_literal_Ok. now destruct (int_literal s).
  - intros []. exact I.
Qed.

(** Case split on the two address reads at the head of the [try] block. *)
Ltac split_addresses ip :=
  let l := fresh "l" in
  let a := fresh "a" in
  let b := fresh "b" in
  destruct ip as [l|];
  [unfold getattr; destruct (assoc "src" l) as [a|], (assoc "dst" l) as [b|] |].

Lemma extract_body_Raise packet now :
  extraction_failure packet -> exists e, extract_body packet now = Raise e.
Proof.
  destruct packet as [ip label len layers].
  intros [l Hip [Hsrc | Hdst] | Hlen | Hlabel | proto Hlabel Hne Hlayer
         | proto layer (Hlabel & Hne & Hlayer) Hport]; simpl in *; subst;
    unfold extract_body; simpl.
  - unfold getattr. rewrite Hsrc. simpl. eauto.
  - unfold getattr. rewrite Hdst. destruct (assoc "src" l); simpl; eauto.
  - assert (exists e, match len with
                      | Some s => py_int s
                      | None => Raise (AttributeError "length")
                      end = Raise e) as [e He].
    { destruct len as [s|]; [now apply int_literal_Raise | eauto]. }
    rewrite He.
    split_addresses ip;
      simpl; eauto.
  - split_addresses ip;
      destruct len as [n|]; simpl; try destruct (py_int n); simpl; eauto.
  - rewrite decide_True by congruence.
    unfold getitem; simpl. rewrite Hlayer.
    split_addresses ip;
      destruct len as [n|]; simpl; try destruct (py_int n); simpl; eauto.
  - rewrite decide_True by congruence.
    unfold getitem; simpl. rewrite Hlayer. simpl.
    destruct Hport as [H | H]; apply read_port_Raise in H as [e He]; rewrite He;
      [| destruct (getattr layer "srcport" ≫= py_int)];
      split_addresses ip; destruct len as [n|]; simpl; try destruct (py_int n);
      simpl; eauto.
Qed.


(** [extract_body] succeeds exactly when its three reads do, and then
    returns the record assembled from them; the first read that raises
    decides the exception. *)
Lemma extract_body_reads packet now :
  extract_body packet now
  = (addresses ← read_addresses packet;
     length ← read_length packet;
     tf ← read_transport packet;
     Ok (assemble now addresses length tf)).
Proof.
  destruct packet as [ip label len layers].
  unfold extract_body, read_addresses, read_length, read_transport, read_ports,
    assemble, getitem; simpl.
  split_addresses ip; simpl; try reflexivity;
    (destruct len as [n|]; simpl; [destruct (py_int n); simpl|]; try reflexivity);
    (destruct label as [[proto|]|]; simpl; try reflexivity);
    (destruct (decide (proto = Unknown)) as [->|Hne];
       [rewrite decide_False by (intros H; now apply H) |
        rewrite decide_True by congruence]; simpl; try reflexivity);
    destruct (assoc proto layers) as [layer|]; simpl; try reflexivity;
    unfold getattr;
    (destruct (assoc "srcport" layer) as [sp|]; simpl; [destruct (py_int sp); simpl|];
       try reflexivity);
    (destruct (assoc "dstport" layer) as [dp|]; simpl; [destruct (py_int dp); simpl|];
       reflexivity).
Qed.

Lemma bind_Raise_inv {A B} (m : result A) (f : A -> result B) e :
  m ≫= f = Raise e -> m = Raise e \/ exists a, m = Ok a /\ f a = Raise e.
Proof. destruct m as [a|e']; simpl; [eauto | intros [= ->]; now left]. Qed.

Lemma read_addresses_Raise_inv packet e :
  read_addresses packet = Raise e ->
  exists l, Packet.ip packet = Some l /\ (assoc "src" l = None \/ assoc "dst" l = None).
Proof.
  unfold read_addresses, getattr. destruct (Packet.ip packet) as [l|]; [|discriminate].
  intros H. exists l. split; [reflexivity|].
  destruct (assoc "src" l); [|now left].
  destruct (assoc "dst" l); [discriminate | now right].
Qed.

Lemma read_length_Raise_inv packet e :
  read_length packet = Raise e -> unreadable_int (Packet.length packet).
Proof.
  unfold read_length, unreadable_int, int_literal.
  destruct (Packet.length packet) as [s|]; [|trivial].
  now intros ->.
Qed.

Lemma read_ports_Raise_inv proto layer e :
  read_ports proto layer = Raise e ->
  unreadable_int (assoc "srcport" layer) \/ unreadable_int (assoc "dstport" layer).
Proof.
  unfold read_ports. intros H.
  destruct (decide (unreadable_int (assoc "srcport" layer))) as [|Hs]; [now left|].
  destruct (decide (unreadable_int (assoc "dstport" layer))) as [|Hd]; [now right|].
  apply read_port_Ok in Hs as [ps Hs], Hd as [pd Hd].
  rewrite Hs, Hd in H. discriminate.
Qed.

Lemma read_transport_Raise_inv packet e :
  read_transport packet = Raise e ->
  Packet.transport_layer packet = Some None
  \/ exists proto,
       Packet.transport_layer packet = Some (Some proto) /\ proto <> Unknown
       /\ match assoc proto (Packet.layers packet) with
          | None => True
          | Some layer =>
              unreadable_int (assoc "srcport" layer)
              \/ unreadable_int (assoc "dstport" layer)
          end.
Proof.
  unfold read_transport.
  destruct (Packet.transport_layer packet) as [[proto|]|]; [| now left | discriminate].
  destruct (decide (proto = Unknown)) as [|Hne]; [discriminate|].
  intros H. right. exists proto. repeat split; [assumption|].
  destruct (assoc proto (Packet.layers packet)) as [layer|]; [|trivial].
  eapply read_ports_Raise_inv, H.
Qed.

Lemma extract_body_Raise_inv packet now e :
  extract_body packet now = Raise e -> extraction_failure packet.
Proof.
  rewrite extract_body_reads. intros H.
  apply bind_Raise_inv in H as [H | (addresses & _ & H)].
  { apply read_addresses_Raise_inv in H as (l & Hip & Hl). eapply fail_address; eauto. }
  apply bind_Raise_inv in H as [H | (length & _ & H)].
  { apply fail_length. eapply read_length_Raise_inv, H. }
  apply bind_Raise_inv in H as [H | (tf & _ & [=])].
  apply read_transport_Raise_inv in H as [H | (proto & Hlabel & Hne & H)].
  { now apply fail_label_none. }
  destruct (assoc proto (Packet.layers packet)) as [layer|] eqn:Hlayer.
  - eapply fail_port; [split; eauto | exact H].
  - eapply fail_layer; eauto.
Qed.

(** The extractor fails exactly on [extraction_failure]; a failure leaves one
    error record in the log, a success leaves none. *)
Lemma extract_packet_data_cases packet now :
  (extraction_failure packet /\
   exists e, extract_packet_data packet now
             = (None, [LogError "Error extracting packet data: " e]))
  \/ (~ extraction_failure packet /\
      exists r, extract_packet_data packet now = (Some r, [])).
Proof.
  unfold extract_packet_data.
  destruct (extract_body packet now) as [r|e] eqn:H.
  - right. split; [|eauto].
    intros Hfail. apply (extract_body_Raise _ now) in Hfail as [e He]. congruence.
  - left. split; [|eauto]. eapply extract_body_Raise_inv, H.
Qed.

Lemma bind_Ok_inv {A B} (m : result A) (f : A -> result B) b :
  m ≫= f = Ok b -> exists a, m = Ok a /\ f a = Ok b.
Proof. destruct m as [a|e]; simpl; [eauto | discriminate]. Qed.

(** A successful extraction is the record assembled from the three reads. *)
Lemma extract_packet_data_Some packet now r :
  (extract_packet_data packet now).1 = Some r ->
  exists addresses length tf,
    read_addresses packet = Ok addresses /\ read_length packet = Ok length
    /\ read_transport packet = Ok tf /\ r = assemble now addresses length tf.
Proof.
  unfold extract_packet_data. rewrite extract_body_reads.
  destruct (_ ≫= _) as [r'|e] eqn:H; simpl; [intros [= ->] | discriminate].
  apply bind_Ok_inv in H as (addresses & Ha & H).
  apply bind_Ok_inv in H as (length & Hl & H).
  apply bind_Ok_inv in H as (tf & Ht & [= <-]).
  eauto 8.
Qed.

(** What [read_transport] returns when it returns: either no port at all
    under the sentinel protocol, or both ports under a resolved one. *)
Lemma read_transport_Ok packet tf :
  read_transport packet = Ok tf ->
  (tf = mk_transport Unknown None None None
   /\ (Packet.transport_layer packet = None
       \/ Packet.transport_layer packet = Some (Some Unknown)))
  \/ (exists proto layer ps pd,
        resolved_layer packet proto layer
        /\ tf = mk_transport proto (Some ps) (Some pd) (assoc "flags" layer)).
Proof.
  unfold read_transport, resolved_layer.
  destruct (Packet.transport_layer packet) as [[proto|]|]; [| discriminate |].
  - destruct (decide (proto = Unknown)) as [->|Hne].
    + intros [= <-]. left. auto.
    + destruct (assoc proto (Packet.layers packet)) as [layer|] eqn:Hlayer;
        [|discriminate].
      unfold read_ports. intros H. right.
      apply bind_Ok_inv in H as (ps & _ & H).
      apply bind_Ok_inv in H as (pd & _ & [= <-]).
      exists proto, layer, ps, pd. repeat split; auto.
  - intros [= <-]. left. auto.
Qed.

(** C4, as stated, fails: the specification counts missing flags among the
    failures that yield [None], but a resolved UDP datagram without flags is
    extracted. *)
Lemma extract_listed_failure_counterexample :
  ~ (forall packet now,
       listed_failure packet -> (extract_packet_data packet now).1 = None).
Proof.
  intros H. specialize (H udp6_packet t0).
  assert (listed_failure udp6_packet) as Hl.
  { right. exists "UDP", [("srcport", "53"); ("dstport", "5353")].
    split; [repeat split; discriminate | right; right; reflexivity]. }
  apply H in Hl. discriminate Hl.
Qed.

(** C4 (amended): the extractor is total and no exception escapes it. It
    returns [None] and logs one error exactly when reading the packet
    fails: a missing address field of a present network layer, a missing or
    non-integer length, a transport label that is [None] or names no layer
    of the packet, a missing or non-integer port of the resolved layer.
    Otherwise it returns a record and logs nothing; missing flags are not a
    failure, the record then has no flags. *)
Theorem extract_packet_data_total packet now :
  (extraction_failure packet ->
   exists e, extract_packet_data packet now
             = (None, [LogError "Error extracting packet data: " e]))
  /\ (~ extraction_failure packet ->
      exists r, extract_packet_data packet now = (Some r, []))
  /\ (forall proto layer r,
        resolved_layer packet proto layer ->
        (extract_packet_data packet now).1 = Some r ->
        PacketData.flags r = assoc "flags" layer).
Proof.
  destruct (extract_packet_data_cases packet now) as [[Hf He] | [Hf Hr]].
  - split; [auto|]. split; [tauto|].
    intros proto layer r _ H. destruct He as [e He]. rewrite He in H. discriminate.
  - split; [tauto|]. split; [auto|].
    intros proto layer r (Hlabel & Hne & Hlayer) H.
    apply extract_packet_data_Some in H as (addresses & len & tf & _ & _ & Ht & ->).
    apply read_transport_Ok in Ht as [[_ [Hl | Hl]] | (p & l & ps & pd & (Hl & _ & Hl') & ->)];
      simpl; congruence.
Qed.




(** ** The prompt builder *)

Lemma append_assoc (s1 s2 s3 : string) : (s1 +:+ s2) +:+ s3 = s1 +:+ s2 +:+ s3.
Proof.
  induction s1 as [|c s1 IH]; [reflexivity|].
  change (String c ((s1 +:+ s2) +:+ s3) = String c (s1 +:+ s2 +:+ s3)).
  now rewrite IH.
Qed.

Example description_udp6 :
  description udp6_record = "Data from Unknown:53 to Unknown:5353, 60 bytes via UDP.".
Proof. reflexivity. Qed.

Example description_bare :
  description bare_record = "Data from Unknown:None to Unknown:None, 42 bytes via Unknown.".
Proof. reflexivity. Qed.

Lemma description_endswith r :
  endswith (description r) ("via " +:+ PacketData.protocol r +:+ ".").
Proof.
  exists ("Data from " +:+ PacketData.src_ip r +:+ ":"
          +:+ py_str_opt_int (PacketData.port_src r) +:+ " to "
          +:+ PacketData.dest_ip r +:+ ":"
          +:+ py_str_opt_int (PacketData.port_dst r) +:+ ", "
          +:+ py_str_int (PacketData.length r) +:+ " bytes ").
  unfold description. rewrite !append_assoc. reflexivity.
Qed.

(** C6, as stated, fails: absent ports are not left out of the line, in
    either reading of "omitted"; the f-string formats them as [None]. *)
Lemma description_ports_omitted_counterexample :
  ~ (forall r,
       PacketData.port_src r = None -> PacketData.port_dst r = None ->
       description r = description_ports_omitted "" r
       \/ description r = description_ports_omitted ":" r).
Proof.
  intros H. destruct (H bare_record eq_refl eq_refl) as [H' | H']; discriminate H'.
Qed.

(** C6 (amended): the prompt is the preamble of the style, then one
    description per record, in batch order and joined by newlines, then the
    closing instruction. The description of a record is
    ["Data from <src>:<src_port> to <dst>:<dst_port>, <length> bytes via <protocol>."]
    and ends in ["via <protocol>."]; an absent port is printed as the text
    [None] (nothing is left out, nothing raises). The builder is a function
    of the batch and the style only. *)
Theorem craft_prompt_descriptions packets style :
  craft_prompt packets style
  = prompt_head style
    +:+ String.concat nl (packet_descriptions packets)
    +:+ prompt_tail style
  /\ length (packet_descriptions packets) = length packets
  /\ (forall i r,
        packets !! i = Some r ->
        packet_descriptions packets !! i
        = Some ("Data from " +:+ PacketData.src_ip r +:+ ":"
                +:+ py_str_opt_int (PacketData.port_src r)
                +:+ " to " +:+ PacketData.dest_ip r +:+ ":"
                +:+ py_str_opt_int (PacketData.port_dst r)
                +:+ ", " +:+ py_str_int (PacketData.length r)
                +:+ " bytes via " +:+ PacketData.protocol r +:+ ".")
        /\ endswith (description r) ("via " +:+ PacketData.protocol r +:+ "."))
  /\ (forall r,
        PacketData.port_src r = None -> PacketData.port_dst r = None ->
        description r
        = "Data from " +:+ PacketData.src_ip r +:+ ":None to "
          +:+ PacketData.dest_ip r +:+ ":None, "
          +:+ py_str_int (PacketData.length r)
          +:+ " bytes via " +:+ PacketData.protocol r +:+ ".")
  /\ (forall packets' style',
        packets' = packets -> style' = style ->
        craft_prompt packets' style' = craft_prompt packets style).
Proof.
  split; [reflexivity|].
  split; [apply length_map|].
  split.
  { intros i r Hi. split; [|apply description_endswith].
    unfold packet_descriptions.
    change (map description packets) with (description <$> packets).
    rewrite list_lookup_fmap, Hi. reflexivity. }
  split.
  { intros r Hs Hd. unfold description. rewrite Hs, Hd. reflexivity. }
  intros packets' style' -> ->. reflexivity.
Qed.

(** ** The generation client *)

Example generate_poetry_ok :
  generate_poetry "p" (Ok [Some "  a poem
"; Some "other"]) = ("a poem", []).
Proof. reflexivity. Qed.

Example generate_poetry_service_down :
  generate_poetry "p" (Raise (ServiceError "connection refused"))
  = (fallback_poetry, [LogError "Error generating poetry: " (ServiceError "connection refused")]).
Proof. reflexivity. Qed.

Example generate_poetry_no_choice :
  generate_poetry "p" (Ok []) = (fallback_poetry, [LogError "Error generating poetry: " IndexError]).
Proof. reflexivity. Qed.


(** ** Dictionaries *)

Lemma dict_get_set_eq {A} k (v : A) d : dict_get k (dict_set k v d) = Some v.
Proof.
  unfold dict_get. induction d as [|[k' v'] d IH]; simpl.
  - now rewrite String.eqb_refl.
  - destruct (String.eqb k k') eqn:E; simpl; rewrite E; [reflexivity | exact IH].
Qed.

Lemma dict_get_set_ne {A} k k' (v : A) d :
  k <> k' -> dict_get k' (dict_set k v d) = dict_get k' d.
Proof.
  unfold dict_get. intros Hne. induction d as [|[k0 v0] d IH]; simpl.
  - destruct (String.eqb_spec k' k); [congruence | reflexivity].
  - destruct (String.eqb_spec k k0) as [->|]; simpl.
    + destruct (String.eqb_spec k' k0); [congruence | reflexivity].
    + now rewrite IH.
Qed.

Lemma dict_keys_set_in {A} k (v : A) d :
  k ∈ dict_keys d -> dict_keys (dict_set k v d) = dict_keys d.
Proof.
  unfold dict_keys. induction d as [|[k' v'] d IH]; simpl.
  - intros H. inversion H.
  - destruct (String.eqb_spec k k') as [->|Hne]; simpl; [reflexivity|].
    intros H. f_equal. apply IH. inversion H; congruence.
Qed.

Lemma dict_set_fresh {A} k (v : A) d :
  k ∉ dict_keys d -> dict_set k v d = d ++ [(k, v)].
Proof.
  unfold dict_keys. induction d as [|[k' v'] d IH]; simpl; [reflexivity|].
  intros H. destruct (String.eqb_spec k k') as [->|Hne].
  - exfalso. apply H. left.
  - f_equal. apply IH. intros Hin. apply H. now right.
Qed.

Lemma dict_keys_set {A} k (v : A) d :
  dict_keys (dict_set k v d)
  = if decide (k ∈ dict_keys d) then dict_keys d else dict_keys d ++ [k].
Proof.
  destruct (decide (k ∈ dict_keys d)) as [Hin|Hout].
  - now apply dict_keys_set_in.
  - rewrite dict_set_fresh by assumption. unfold dict_keys. now rewrite map_app.
Qed.

Lemma dict_set_NoDup {A} k (v : A) d :
  NoDup (dict_keys d) -> NoDup (dict_keys (dict_set k v d)).
Proof.
  intros Hd. rewrite dict_keys_set. destruct (decide (k ∈ dict_keys d)); [assumption|].
  apply NoDup_app. repeat split; [assumption | | apply NoDup_singleton].
  intros x Hx Hk. apply list_elem_of_singleton in Hk. congruence.
Qed.

(** Membership after [d[k] = v]: the new item or an old one. *)
Lemma elem_of_dict_set {A} k (v : A) d k' v' :
  (k', v') ∈ dict_set k v d -> (k' = k /\ v' = v) \/ (k', v') ∈ d.
Proof.
  induction d as [|[k0 v0] d IH]; simpl.
  - intros H. apply list_elem_of_singleton in H. injection H as -> ->. now left.
  - destruct (String.eqb_spec k k0) as [->|Hne]; intros H;
      apply elem_of_cons in H as [H | H].
    + injection H as -> ->. now left.
    + right. now right.
    + injection H as -> ->. right. left.
    + apply IH in H as [H | H]; [now left | right; now right].
Qed.

(** ** The pipeline: steps, runs and invariants *)

Section PipelineFacts.
Variable style : PoetryStyle.

Lemma perform_step s a s' e :
  perform style s a = Some (s', e) -> step style s e s'.
Proof.
  unfold perform. destruct (running s) eqn:Hrun; [|discriminate].
  destruct a as [packet now | | outcome now_iso | io];
    destruct (consumer s) as [|prompt] eqn:Hc; intros H; try discriminate H;
    injection H as H;
    change s' with (fst (s', e)); change e with (snd (s', e)) at 1; rewrite <- H.
  - now apply (step_producer style s packet now).
  - now apply (step_producer style s packet now).
  - now apply step_wakeup.
  - now apply (step_resume style s prompt outcome now_iso).
  - now apply (step_shutdown style s io).
  - now apply (step_shutdown style s io).
Qed.

Lemma step_perform s e s' :
  step style s e s' -> exists a, perform style s a = Some (s', e).
Proof.
  intros [s0 packet now Hrun | s0 Hrun Hc | s0 prompt outcome now_iso Hrun Hc
         | s0 io Hrun].
  - exists (Capture packet now). unfold perform. rewrite Hrun.
    now destruct (producer_iteration s0 packet now), (consumer s0).
  - exists Wake. unfold perform. rewrite Hrun, Hc.
    now destruct (consumer_wakeup style s0).
  - exists (Resume outcome now_iso). unfold perform. rewrite Hrun, Hc.
    now destruct (consumer_resume style s0 prompt outcome now_iso).
  - exists (Stop io). unfold perform. rewrite Hrun.
    now destruct (shutdown s0 io), (consumer s0).
Qed.

Lemma perform_all_run s actions s' tr :
  perform_all style s actions = Some (s', tr) -> run style s tr s'.
Proof.
  revert s s' tr. induction actions as [|a actions IH]; simpl; intros s s' tr.
  - intros [= <- <-]. constructor.
  - destruct (perform style s a) as [[s1 e]|] eqn:Ha; [|discriminate].
    destruct (perform_all style s1 actions) as [[s2 tr']|] eqn:Hall; [|discriminate].
    intros [= <- <-]. econstructor; [eapply perform_step, Ha | now apply IH].
Qed.

Lemma run_app s tr s' tr' s'' :
  run style s tr s' -> run style s' tr' s'' -> run style s (tr ++ tr') s''.
Proof.
  induction 1 as [|s e s1 tr s2 Hstep Hrun IH]; simpl; [auto|].
  intros H. econstructor; [exact Hstep | now apply IH].
Qed.

Lemma reachable_step s e s' : reachable style s -> step style s e s' -> reachable style s'.
Proof.
  intros [tr Hrun] Hstep. exists (tr ++ [e]).
  eapply run_app; [exact Hrun|]. econstructor; [exact Hstep | constructor].
Qed.

Lemma reachable_run s tr s' : reachable style s -> run style s tr s' -> reachable style s'.
Proof.
  intros [tr0 Hrun0] Hrun. exists (tr0 ++ tr). eapply run_app; eassumption.
Qed.

Lemma step_running s e s' : step style s e s' -> running s = true.
Proof. now intros [? ? ? H | ? H ? | ? ? ? ? H ? | ? ? H]. Qed.

(** What an event says about the step that shows it. *)
Lemma step_Appended s r s' :
  step style s (Appended r) s' ->
  packet_buffer s' = packet_buffer s ++ [r]
  /\ poetry_archive s' = poetry_archive s /\ consumer s' = consumer s
  /\ running s' = true.
Proof.
  intros H. apply step_perform in H as [a H]. unfold perform in H.
  destruct (running s) eqn:Hrun; [|discriminate].
  destruct a as [packet now | | outcome now_iso | io];
    destruct (consumer s) as [|prompt] eqn:Hc; try discriminate;
    unfold producer_iteration, consumer_wakeup, consumer_resume, shutdown in H;
    repeat case_match; simplify_eq; simpl; auto.
Qed.

Lemma step_Dropped s s' :
  step style s Dropped s' ->
  packet_buffer s' = packet_buffer s
  /\ poetry_archive s' = poetry_archive s /\ consumer s' = consumer s
  /\ running s' = true.
Proof.
  intros H. apply step_perform in H as [a H]. unfold perform in H.
  destruct (running s) eqn:Hrun; [|discriminate].
  destruct a as [packet now | | outcome now_iso | io];
    destruct (consumer s) as [|prompt] eqn:Hc; try discriminate;
    unfold producer_iteration, consumer_wakeup, consumer_resume, shutdown in H;
    repeat case_match; simplify_eq; simpl; auto.
Qed.

Lemma step_Idle s s' :
  step style s Idle s' ->
  s' = s /\ consumer s = AtSleep /\ running s = true
  /\ length (packet_buffer s) < threshold.
Proof.
  intros H. apply step_perform in H as [a H]. unfold perform in H.
  destruct (running s) eqn:Hrun; [|discriminate].
  destruct a as [packet now | | outcome now_iso | io];
    destruct (consumer s) as [|prompt] eqn:Hc; try discriminate;
    unfold producer_iteration, consumer_wakeup, consumer_resume, shutdown in H;
    repeat case_match; simplify_eq; simpl; repeat split; auto.
  match goal with E : (_ <=? _)%nat = false |- _ => apply Nat.leb_gt in E; exact E end.
Qed.

Lemma step_Dispatched s batch prompt s' :
  step style s (Dispatched batch prompt) s' ->
  batch = packet_buffer s /\ prompt = craft_prompt batch style
  /\ threshold <= length batch
  /\ consumer s = AtSleep /\ running s = true
  /\ s' = mk_state (packet_buffer s) (poetry_archive s) (AtGenerate prompt)
             true (log s).
Proof.
  intros H. apply step_perform in H as [a H]. unfold perform in H.
  destruct (running s) eqn:Hrun; [|discriminate].
  destruct a as [packet now | | outcome now_iso | io];
    destruct (consumer s) as [|p] eqn:Hc; try discriminate;
    unfold producer_iteration, consumer_wakeup, consumer_resume, shutdown in H;
    repeat case_match; simplify_eq; simpl; repeat split; auto.
  - match goal with E : (_ <=? _)%nat = true |- _ => apply Nat.leb_le in E; exact E end.
  - now rewrite Hrun.
Qed.

Lemma step_Archived s entry s' :
  step style s (Archived entry) s' ->
  exists prompt outcome now_iso,
    consumer s = AtGenerate prompt /\ running s = true
    /\ (s', Archived entry) = consumer_resume style s prompt outcome now_iso.
Proof.
  intros H. apply step_perform in H as [a H]. unfold perform in H.
  destruct (running s) eqn:Hrun; [|discriminate].
  destruct a as [packet now | | outcome now_iso | io];
    destruct (consumer s) as [|p] eqn:Hc; try discriminate;
    try (unfold producer_iteration, consumer_wakeup, shutdown in H;
         repeat case_match; simplify_eq; fail).
  injection H as H. exists p, outcome, now_iso. now rewrite H.
Qed.
End PipelineFacts.

(** ** Invariants *)

Lemma vars_wf p : pyval_wf (PyDict (vars p)).
Proof.
  split.
  - apply (bool_decide_unpack _). vm_compute. exact I.
  - simpl. destruct (PacketData.port_src p), (PacketData.port_dst p),
      (PacketData.flags p); simpl; tauto.
Qed.

Lemma buffer_vars_wf (buffer : list PacketData.t) :
  pyval_wf (PyList (map PyDict (map vars buffer))).
Proof.
  induction buffer as [|p buffer IH]; [exact I|].
  split; [apply vars_wf | exact IH].
Qed.

Section Invariants.
Variable style : PoetryStyle.

Lemma invariant_init : invariant init.
Proof.
  repeat split.
  - constructor.
  - intros k entry H. inversion H.
  - intros k entry H. inversion H.
  - discriminate.
Qed.

Lemma invariant_step s e s' : step style s e s' -> invariant s -> invariant s'.
Proof.
  intros Hstep ((Hnodup & Hwf) & Hkeys & Hlen).
  destruct Hstep as [s packet now Hrun | s Hrun Hc | s prompt outcome now_iso Hrun Hc
                    | s io Hrun].
  - unfold producer_iteration.
    destruct (extract_packet_data packet now) as [[r|] logs]; simpl;
      repeat split; auto.
    intros prompt Hp. simpl in *. specialize (Hlen prompt Hp).
    rewrite length_app. lia.
  - unfold consumer_wakeup.
    destruct (threshold <=? length (packet_buffer s))%nat eqn:E; simpl;
      repeat split; auto.
    intros prompt _. simpl. now apply Nat.leb_le.
  - unfold consumer_resume.
    destruct (generate_poetry prompt outcome) as [poetry logs]; simpl.
    repeat split.
    + now apply dict_set_NoDup.
    + intros k entry H. apply elem_of_dict_set in H as [[-> ->] | H].
      * apply buffer_vars_wf.
      * eapply Hwf, H.
    + intros k entry H. apply elem_of_dict_set in H as [[-> ->] | H].
      * reflexivity.
      * now apply Hkeys.
    + discriminate.
  - unfold shutdown.
    destruct (save_archive (poetry_archive s) io) as [artifact logs]; simpl.
    repeat split; auto.
Qed.

Lemma invariant_run s tr s' : run style s tr s' -> invariant s -> invariant s'.
Proof.
  induction 1 as [|s e s1 tr s2 Hstep Hrun IH]; [auto|].
  intros H. eapply IH, invariant_step; eassumption.
Qed.

Lemma invariant_reachable s : reachable style s -> invariant s.
Proof. intros [tr Hrun]. eapply invariant_run; [exact Hrun | apply invariant_init]. Qed.

(** While only the producer runs, the buffer grows at its end and nothing
    else moves. *)
Lemma run_producer_only s tr s' :
  run style s tr s' -> forallb producer_event tr = true ->
  packet_buffer s' = packet_buffer s ++ appended tr
  /\ poetry_archive s' = poetry_archive s /\ consumer s' = consumer s
  /\ running s' = running s.
Proof.
  induction 1 as [s|s e s1 tr s2 Hstep Hrun IH]; simpl.
  - intros _. now rewrite app_nil_r.
  - intros H. apply andb_prop in H as [He Htr].
    destruct (IH Htr) as (Hb & Ha & Hc & Hr).
    pose proof (step_running style _ _ _ Hstep) as Hr0.
    destruct e; try discriminate He.
    + apply step_Appended in Hstep as (Hb1 & Ha1 & Hc1 & Hr1).
      rewrite Hb, Ha, Hc, Hr, Hb1, Ha1, Hc1, Hr1, Hr0. now rewrite <- app_assoc.
    + apply step_Dropped in Hstep as (Hb1 & Ha1 & Hc1 & Hr1).
      rewrite Hb, Ha, Hc, Hr, Hb1, Ha1, Hc1, Hr1, Hr0. auto.
Qed.
End Invariants.

(** ** The sample schedules, run *)

Example race_run :
  perform_all PESSOA init race_schedule
  = Some (mk_state []
            [("2024-05-01T12:00:00.000001",
              PoetryArchiveEntry.mk "Packets drift, unnamed."
                (map vars (replicate 5 bare_record ++ [udp6_record]))
                "pessoa" "2024-05-01T12:00:00.000001")]
            AtSleep true
            [LogInfo (nl +:+ "--- New Poetry Generated at 2024-05-01T12:00:00.000001 ---"
                      +:+ nl +:+ "Packets drift, unnamed." +:+ nl)],
          replicate 5 (Appended bare_record)
          ++ [Dispatched (replicate 5 bare_record)
                (craft_prompt (replicate 5 bare_record) PESSOA);
              Appended udp6_record;
              Archived (PoetryArchiveEntry.mk "Packets drift, unnamed."
                          (map vars (replicate 5 bare_record ++ [udp6_record]))
                          "pessoa" "2024-05-01T12:00:00.000001")]).
Proof. vm_compute. reflexivity. Qed.

Example burst_run :
  perform_all PESSOA init burst_schedule
  = Some (mk_state (replicate 6 bare_record) []
            (AtGenerate (craft_prompt (replicate 6 bare_record) PESSOA)) true [],
          replicate 6 (Appended bare_record)
          ++ [Dispatched (replicate 6 bare_record)
                (craft_prompt (replicate 6 bare_record) PESSOA)]).
Proof. vm_compute. reflexivity. Qed.

Lemma five_buffered_reachable : reachable PESSOA five_buffered.
Proof.
  exists (replicate 5 (Appended bare_record)).
  apply (perform_all_run PESSOA init five_captures). reflexivity.
Qed.

Lemma five_in_flight_reachable : reachable PESSOA five_in_flight.
Proof.
  eapply reachable_step; [apply five_buffered_reachable|].
  apply (perform_step PESSOA five_buffered Wake). reflexivity.
Qed.

Lemma six_buffered_reachable : reachable PESSOA six_buffered.
Proof.
  exists (replicate 6 (Appended bare_record)).
  apply (perform_all_run PESSOA init (replicate 6 (Capture bare_packet t0))). reflexivity.
Qed.

(** ** The drain *)

(** What the consumer does when the generation returns. *)
Lemma consumer_resume_spec style s prompt outcome now_iso :
  consumer_resume style s prompt outcome now_iso
  = (mk_state []
       (dict_set now_iso
          (PoetryArchiveEntry.mk (generate_poetry prompt outcome).1
             (map vars (packet_buffer s)) (style_value style) now_iso)
          (poetry_archive s))
       AtSleep (running s)
       (log s ++ (generate_poetry prompt outcome).2
        ++ [LogInfo (nl +:+ "--- New Poetry Generated at " +:+ now_iso +:+ " ---"
                     +:+ nl +:+ (generate_poetry prompt outcome).1 +:+ nl)]),
     Archived (PoetryArchiveEntry.mk (generate_poetry prompt outcome).1
                 (map vars (packet_buffer s)) (style_value style) now_iso)).
Proof.
  unfold consumer_resume. now destruct (generate_poetry prompt outcome).
Qed.

Lemma step_Archived_spec style s entry s' :
  step style s (Archived entry) s' ->
  PoetryArchiveEntry.packets entry = map vars (packet_buffer s)
  /\ PoetryArchiveEntry.style entry = style_value style
  /\ packet_buffer s' = []
  /\ consumer s' = AtSleep
  /\ poetry_archive s'
     = dict_set (PoetryArchiveEntry.generated_at entry) entry (poetry_archive s).
Proof.
  intros H. apply step_Archived in H as (prompt & outcome & now_iso & _ & _ & H).
  rewrite consumer_resume_spec in H. injection H as -> ->. simpl. auto.
Qed.

(** C1, as stated, fails: a record appended while the generation is in
    flight ends up in the batch that this drain archives. *)
Lemma frozen_snapshot_counterexample : ~ frozen_snapshot_claim PESSOA.
Proof.
  intros H.
  specialize (H five_buffered (replicate 5 bare_record)
                (craft_prompt (replicate 5 bare_record) PESSOA)
                five_in_flight [Appended udp6_record] six_in_flight
                (PoetryArchiveEntry.mk "Packets drift, unnamed."
                   (map vars (replicate 5 bare_record ++ [udp6_record]))
                   "pessoa" "2024-05-01T12:00:00.000001")
                (consumer_resume PESSOA six_in_flight
                   (craft_prompt (replicate 5 bare_record) PESSOA) poem
                   "2024-05-01T12:00:00.000001").1
                five_buffered_reachable).
  assert (map vars (replicate 5 bare_record ++ [udp6_record])
          = map vars (replicate 5 bare_record)) as Heq; [|discriminate Heq].
  apply H.
  - apply (perform_step PESSOA five_buffered Wake). reflexivity.
  - apply (perform_all_run PESSOA five_in_flight [Capture udp6_packet t0]). reflexivity.
  - reflexivity.
  - apply (perform_step PESSOA six_in_flight (Resume poem "2024-05-01T12:00:00.000001")).
    reflexivity.
Qed.

(** C1 (amended): a drain builds its prompt from the buffer as it is when
    the consumer wakes up, and archives the buffer as it is when the
    generation returns: the batch of the prompt followed by every record
    the producer appended in between. Taking that batch and clearing the
    buffer happen in one step, with no append in between. *)
Theorem drain_archives_buffer_at_resume style s batch prompt s1 tr s2 entry s3 :
  step style s (Dispatched batch prompt) s1 ->
  run style s1 tr s2 ->
  forallb producer_event tr = true ->
  step style s2 (Archived entry) s3 ->
  batch = packet_buffer s
  /\ prompt = craft_prompt batch style
  /\ packet_buffer s2 = batch ++ appended tr
  /\ PoetryArchiveEntry.packets entry = map vars (batch ++ appended tr)
  /\ packet_buffer s3 = [].
Proof.
  intros Hd Hrun Htr Ha.
  apply step_Dispatched in Hd as (Hb & Hp & _ & _ & _ & ->).
  apply run_producer_only in Hrun as (Hbuf & _); [|exact Htr]. simpl in Hbuf.
  apply step_Archived_spec in Ha as (Hpk & _ & Hclear & _).
  subst batch. repeat split; try assumption.
  now rewrite Hpk, Hbuf.
Qed.

(** The theorem on the run where a sixth record arrives during the generation. *)
Lemma drain_archives_buffer_at_resume_witness :
  replicate 5 bare_record = packet_buffer five_buffered
  /\ craft_prompt (replicate 5 bare_record) PESSOA
     = craft_prompt (replicate 5 bare_record) PESSOA
  /\ packet_buffer six_in_flight
     = replicate 5 bare_record ++ appended [Appended udp6_record]
  /\ PoetryArchiveEntry.packets
       (PoetryArchiveEntry.mk "Packets drift, unnamed."
          (map vars (replicate 5 bare_record ++ [udp6_record]))
          "pessoa" "2024-05-01T12:00:00.000001")
     = map vars (replicate 5 bare_record ++ appended [Appended udp6_record])
  /\ packet_buffer
       (consumer_resume PESSOA six_in_flight
          (craft_prompt (replicate 5 bare_record) PESSOA) poem
          "2024-05-01T12:00:00.000001").1
     = [].
Proof.
  apply (drain_archives_buffer_at_resume PESSOA five_buffered _ _ five_in_flight).
  - apply (perform_step PESSOA five_buffered Wake). reflexivity.
  - apply (perform_all_run PESSOA five_in_flight [Capture udp6_packet t0]). reflexivity.
  - reflexivity.
  - apply (perform_step PESSOA six_in_flight (Resume poem "2024-05-01T12:00:00.000001")).
    reflexivity.
Defined.

(** C2, as stated, fails: the consumer polls once a second while packets
    arrive in between, so it can find more than 5 records; the batch then
    has them all. *)
Lemma exact_threshold_counterexample : ~ exact_threshold_claim PESSOA.
Proof.
  intros H. destruct (H six_buffered six_buffered_reachable) as [Hd _].
  specialize (Hd (replicate 6 bare_record)
                (craft_prompt (replicate 6 bare_record) PESSOA)
                (consumer_wakeup PESSOA six_buffered).1).
  assert (length (replicate 6 bare_record) = threshold) as Heq; [|discriminate Heq].
  apply Hd. apply (perform_step PESSOA six_buffered Wake). reflexivity.
Qed.

(** C2 (amended): when the consumer wakes up it drains if and only if the
    buffer holds at least 5 records (below that it leaves the state as it
    is); the batch of the prompt is the whole buffer, the archived batch has
    at least 5 records, and right after the drain the buffer is empty. *)
Theorem drain_at_threshold style s :
  reachable style s ->
  (forall batch prompt s',
     step style s (Dispatched batch prompt) s' ->
     batch = packet_buffer s /\ threshold <= length batch)
  /\ (forall s', step style s Idle s' ->
        length (packet_buffer s) < threshold /\ s' = s)
  /\ (running s = true -> consumer s = AtSleep ->
        if decide (threshold <= length (packet_buffer s))
        then exists s', step style s
                          (Dispatched (packet_buffer s)
                             (craft_prompt (packet_buffer s) style)) s'
        else step style s Idle s)
  /\ (forall entry s',
        step style s (Archived entry) s' ->
        threshold <= length (PoetryArchiveEntry.packets entry)
        /\ packet_buffer s' = []).
Proof.
  intros Hreach. apply invariant_reachable in Hreach as (_ & _ & Hlen).
  repeat split.
  - now apply step_Dispatched in H as (-> & _).
  - now apply step_Dispatched in H as (_ & _ & Hle & _).
  - now apply step_Idle in H as (_ & _ & _ & Hlt).
  - now apply step_Idle in H as (-> & _).
  - intros Hrun Hc.
    pose proof (step_wakeup style s Hrun Hc) as Hstep. unfold consumer_wakeup in Hstep.
    destruct (decide (threshold <= length (packet_buffer s))) as [Hle | Hgt].
    + apply Nat.leb_le in Hle. rewrite Hle in Hstep. simpl in Hstep. eauto.
    + apply Nat.leb_nle in Hgt. rewrite Hgt in Hstep. exact Hstep.
  - apply step_Archived in H as (prompt & outcome & now_iso & Hc & _ & H).
    rewrite consumer_resume_spec in H. injection H as _ ->. simpl.
    rewrite length_map. eapply Hlen, Hc.
  - now apply step_Archived_spec in H as (_ & _ & Hclear & _).
Qed.

(** The theorem at the state reached by six captures between two polls. *)
Lemma drain_at_threshold_witness :
  (forall batch prompt s',
     step PESSOA six_buffered (Dispatched batch prompt) s' ->
     batch = packet_buffer six_buffered /\ threshold <= length batch)
  /\ (forall s', step PESSOA six_buffered Idle s' ->
        length (packet_buffer six_buffered) < threshold /\ s' = six_buffered)
  /\ (running six_buffered = true -> consumer six_buffered = AtSleep ->
        if decide (threshold <= length (packet_buffer six_buffered))
        then exists s', step PESSOA six_buffered
                          (Dispatched (packet_buffer six_buffered)
                             (craft_prompt (packet_buffer six_buffered) PESSOA)) s'
        else step PESSOA six_buffered Idle six_buffered)
  /\ (forall entry s',
        step PESSOA six_buffered (Archived entry) s' ->
        threshold <= length (PoetryArchiveEntry.packets entry)
        /\ packet_buffer s' = []).
Proof.
  apply (drain_at_threshold PESSOA six_buffered).
  exists (replicate 6 (Appended bare_record)).
  apply (perform_all_run PESSOA init (replicate 6 (Capture bare_packet t0))).
  reflexivity.
Defined.

(** C3, as stated, fails: while a generation is in flight the consumer is
    suspended in [await self.generate_poetry(prompt)] and does not poll. *)
Lemma polls_during_generation_counterexample : ~ polls_during_generation_claim PESSOA.
Proof.
  intros H.
  destruct (H five_in_flight _ five_in_flight_reachable eq_refl eq_refl)
    as (e & s' & He & Hstep).
  destruct e; try discriminate He.
  - apply step_Idle in Hstep as (_ & Hc & _). discriminate Hc.
  - apply step_Dispatched in Hstep as (_ & _ & _ & Hc & _). discriminate Hc.
Qed.

(** C3 (amended): the consumer awaits the generation call: from the
    dispatch until the result is archived it neither polls nor dispatches,
    so at most one generation is in flight. The call does not hold up the
    capture loop: in every running state, also with a generation in flight,
    the producer's next iteration can run. *)
Theorem consumer_awaits_generation style s prompt :
  consumer s = AtGenerate prompt ->
  (forall e s', step style s e s' ->
     poll_event e = false
     /\ (consumer s' = AtGenerate prompt \/ exists entry, e = Archived entry))
  /\ (running s = true ->
      forall packet now,
        step style s (producer_iteration s packet now).2
                     (producer_iteration s packet now).1
        /\ producer_event (producer_iteration s packet now).2 = true).
Proof.
  intros Hc. split.
  - intros e s' Hstep.
    destruct Hstep as [s packet now Hrun | s Hrun Hc' | s p outcome now_iso Hrun Hc'
                      | s io Hrun].
    + unfold producer_iteration.
      destruct (extract_packet_data packet now) as [[r|] logs]; simpl; auto.
    + congruence.
    + rewrite consumer_resume_spec. simpl. eauto.
    + unfold shutdown.
      destruct (save_archive (poetry_archive s) io) as [artifact logs]; simpl; auto.
  - intros Hrun packet now. split; [now apply step_producer|].
    unfold producer_iteration.
    now destruct (extract_packet_data packet now) as [[r|] logs].
Qed.

(** The theorem at the state where the first batch of five is in flight. *)
Lemma consumer_awaits_generation_witness :
  (forall e s', step PESSOA five_in_flight e s' ->
     poll_event e = false
     /\ (consumer s' = AtGenerate (craft_prompt (replicate 5 bare_record) PESSOA)
         \/ exists entry, e = Archived entry))
  /\ (running five_in_flight = true ->
      forall packet now,
        step PESSOA five_in_flight (producer_iteration five_in_flight packet now).2
                     (producer_iteration five_in_flight packet now).1
        /\ producer_event (producer_iteration five_in_flight packet now).2 = true).
Proof.
  apply (consumer_awaits_generation PESSOA five_in_flight). reflexivity.
Defined.

(** ** Generation failures and the archive *)



(** Keys stay in the archive. *)
Lemma step_keeps_keys style s e s' k :
  step style s e s' ->
  k ∈ dict_keys (poetry_archive s) -> k ∈ dict_keys (poetry_archive s').
Proof.
  intros [s0 packet now Hrun | s0 Hrun Hc | s0 prompt outcome now_iso Hrun Hc
         | s0 io Hrun] Hk.
  - unfold producer_iteration.
    now destruct (extract_packet_data packet now) as [[r|] logs].
  - unfold consumer_wakeup. now destruct (_ <=? _)%nat.
  - rewrite consumer_resume_spec. simpl. rewrite dict_keys_set.
    destruct (decide (now_iso ∈ dict_keys (poetry_archive s0))); [assumption|].
    apply elem_of_app. now left.
  - unfold shutdown. now destruct (save_archive (poetry_archive s0) io).
Qed.

Lemma run_keeps_keys style s tr s' k :
  run style s tr s' ->
  k ∈ dict_keys (poetry_archive s) -> k ∈ dict_keys (poetry_archive s').
Proof.
  induction 1 as [|s e s1 tr s2 Hstep Hrun IH]; [auto|].
  intros Hk. eapply IH, step_keeps_keys; eassumption.
Qed.

Lemma dict_get_elem_of {A} k (v : A) d : dict_get k d = Some v -> (k, v) ∈ d.
Proof.
  unfold dict_get. induction d as [|[k' v'] d IH]; simpl; [discriminate|].
  destruct (String.eqb_spec k k') as [->|Hne].
  - intros [= ->]. left.
  - intros H. right. now apply IH.
Qed.

Lemma elem_of_dict_keys {A} k (v : A) d : (k, v) ∈ d -> k ∈ dict_keys d.
Proof. intros H. unfold dict_keys. apply list_elem_of_fmap. now exists (k, v). Qed.

(** Under distinct keys an item is the one [get] finds. *)
Lemma NoDup_dict_get {A} k (v : A) d :
  NoDup (dict_keys d) -> (k, v) ∈ d -> dict_get k d = Some v.
Proof.
  unfold dict_get, dict_keys. induction d as [|[k' v'] d IH]; simpl.
  - intros _ H. inversion H.
  - intros Hnd H. apply NoDup_cons in Hnd as [Hk' Hnd].
    apply elem_of_cons in H as [[= -> ->] | H].
    + now rewrite String.eqb_refl.
    + destruct (String.eqb_spec k k') as [->|Hne]; [|now apply IH].
      exfalso. apply Hk'. apply (elem_of_dict_keys _ v), H.
Qed.

(** C8: recording an entry under a key the archive already holds replaces
    the value and adds no key. After two drains with the same timestamp the
    archive has that key once, and what it holds there is the entry of the
    second drain, whose packets are the second batch. *)
Theorem same_key_overwrites style s entry1 s1 tr s2 entry2 s3 :
  reachable style s ->
  step style s (Archived entry1) s1 ->
  run style s1 tr s2 ->
  step style s2 (Archived entry2) s3 ->
  PoetryArchiveEntry.generated_at entry1 = PoetryArchiveEntry.generated_at entry2 ->
  dict_get (PoetryArchiveEntry.generated_at entry2) (poetry_archive s3) = Some entry2
  /\ NoDup (dict_keys (poetry_archive s3))
  /\ (forall entry, (PoetryArchiveEntry.generated_at entry2, entry) ∈ poetry_archive s3 ->
        entry = entry2)
  /\ dict_keys (poetry_archive s3) = dict_keys (poetry_archive s2)
  /\ PoetryArchiveEntry.packets entry2 = map vars (packet_buffer s2).
Proof.
  intros Hreach H1 Hrun H2 Hkey.
  assert (reachable style s3) as Hreach3.
  { eapply reachable_step; [|exact H2].
    eapply reachable_run; [|exact Hrun]. eapply reachable_step; eassumption. }
  apply invariant_reachable in Hreach3 as ((Hnd & _) & _).
  apply step_Archived_spec in H1 as (_ & _ & _ & _ & Ha1).
  apply step_Archived_spec in H2 as (Hpk & _ & _ & _ & Ha3).
  assert (dict_get (PoetryArchiveEntry.generated_at entry2) (poetry_archive s3)
          = Some entry2) as Hget.
  { rewrite Ha3. apply dict_get_set_eq. }
  repeat split; try assumption.
  - intros entry Hin. apply NoDup_dict_get in Hin; [congruence | assumption].
  - rewrite Ha3. apply dict_keys_set_in.
    eapply run_keeps_keys; [exact Hrun|].
    rewrite Ha1, <- Hkey. eapply elem_of_dict_keys, dict_get_elem_of, dict_get_set_eq.
Qed.

(** The theorem on two drains that get the same timestamp; the second one
    falls back. *)
Lemma same_key_overwrites_witness :
  dict_get (PoetryArchiveEntry.generated_at entry_udp6)
    (poetry_archive
       (state_after PESSOA
          (first_drain ++ [Resume poem noon] ++ second_drain
           ++ [Resume (Raise (ServiceError "timeout")) noon])))
  = Some entry_udp6
  /\ NoDup (dict_keys (poetry_archive
       (state_after PESSOA
          (first_drain ++ [Resume poem noon] ++ second_drain
           ++ [Resume (Raise (ServiceError "timeout")) noon]))))
  /\ (forall entry,
        (PoetryArchiveEntry.generated_at entry_udp6, entry)
        ∈ poetry_archive
            (state_after PESSOA
               (first_drain ++ [Resume poem noon] ++ second_drain
                ++ [Resume (Raise (ServiceError "timeout")) noon])) ->
        entry = entry_udp6)
  /\ dict_keys (poetry_archive
       (state_after PESSOA
          (first_drain ++ [Resume poem noon] ++ second_drain
           ++ [Resume (Raise (ServiceError "timeout")) noon])))
     = dict_keys (poetry_archive
         (state_after PESSOA (first_drain ++ [Resume poem noon] ++ second_drain)))
  /\ PoetryArchiveEntry.packets entry_udp6
     = map vars (packet_buffer
         (state_after PESSOA (first_drain ++ [Resume poem noon] ++ second_drain))).
Proof.
  apply (same_key_overwrites PESSOA five_in_flight entry_bare
           (state_after PESSOA (first_drain ++ [Resume poem noon]))
           (replicate 5 (Appended udp6_record)
            ++ [Dispatched (replicate 5 udp6_record)
                  (craft_prompt (replicate 5 udp6_record) PESSOA)])).
  - eapply reachable_step; [exists (replicate 5 (Appended bare_record))|].
    + apply (perform_all_run PESSOA init five_captures). reflexivity.
    + apply (perform_step PESSOA five_buffered Wake). reflexivity.
  - apply (perform_step PESSOA five_in_flight (Resume poem noon)). reflexivity.
  - apply (perform_all_run PESSOA _ second_drain). reflexivity.
  - apply (perform_step PESSOA _ (Resume (Raise (ServiceError "timeout")) noon)).
    reflexivity.
  - reflexivity.
Defined.

(** ** Persisting and reloading the archive *)

Lemma fold_dict_set_fresh {A} (items acc : list (string * A)) :
  NoDup (dict_keys acc ++ dict_keys items) ->
  fold_left (fun d kv => dict_set kv.1 kv.2 d) items acc = acc ++ items.
Proof.
  revert acc. induction items as [|[k v] items IH]; intros acc Hnd; simpl.
  - now rewrite app_nil_r.
  - apply NoDup_app in Hnd as (Hacc & Hdisj & Hitems).
    apply NoDup_cons in Hitems as (Hk & Hitems).
    rewrite dict_set_fresh.
    + rewrite IH; [now rewrite <- app_assoc|].
      unfold dict_keys. rewrite map_app. simpl. rewrite <- app_assoc. simpl.
      apply NoDup_app. repeat split; [assumption | | now constructor].
      intros x Hx Hin. apply (Hdisj x Hx). exact Hin.
    + intros Hin. apply (Hdisj k Hin). left.
Qed.

(** A comprehension over items with distinct keys keeps them as they are. *)
Lemma dict_of_items_NoDup {A} (items : list (string * A)) :
  NoDup (dict_keys items) -> dict_of_items items = items.
Proof. intros H. unfold dict_of_items. now rewrite fold_dict_set_fresh. Qed.

Lemma dict_keys_map_values {A B} (f : A -> B) (d : list (string * A)) :
  dict_keys (map (fun item => (item.1, f item.2)) d) = dict_keys d.
Proof. unfold dict_keys. rewrite map_map. reflexivity. Qed.

Lemma dict_get_map_values {A B} (f : A -> B) (d : list (string * A)) k :
  dict_get k (map (fun item => (item.1, f item.2)) d) = f <$> dict_get k d.
Proof.
  unfold dict_get. induction d as [|[k' v'] d IH]; simpl; [reflexivity|].
  now destruct (String.eqb k k').
Qed.

Lemma archive_dict_NoDup archive :
  NoDup (dict_keys archive) ->
  archive_dict archive = map (fun item => (item.1, entry_dict item.2)) archive.
Proof.
  intros H. unfold archive_dict. apply dict_of_items_NoDup.
  now rewrite dict_keys_map_values.
Qed.

(** [json.load] undoes [json.dump] on Python values. *)
Lemma json_load_dump : forall v, pyval_wf v -> json_load (json_dump v) = v.
Proof.
  fix IH 1. intros [ | n | x | s | l | d] Hwf; simpl; try reflexivity.
  - f_equal. induction l as [|v l IHl]; simpl; [reflexivity|].
    destruct Hwf as [Hv Hl]. f_equal; [now apply IH | now apply IHl].
  - destruct Hwf as [Hnd Hd]. f_equal. rewrite map_map. simpl.
    assert (map (fun kv : string * pyval => (kv.1, json_load (json_dump kv.2))) d = d)
      as ->.
    { clear Hnd. induction d as [|[k v] d IHd]; simpl; [reflexivity|].
      destruct Hd as [Hv Hd]. f_equal; [f_equal; now apply IH | now apply IHd]. }
    now apply dict_of_items_NoDup.
Qed.

Lemma entry_dict_wf entry :
  pyval_wf (PyList (map PyDict (PoetryArchiveEntry.packets entry))) ->
  pyval_wf (entry_dict entry).
Proof.
  intros H. split.
  - apply (bool_decide_unpack _). vm_compute. exact I.
  - simpl in *. tauto.
Qed.

Lemma archive_dict_wf archive :
  archive_wf archive -> pyval_wf (PyDict (archive_dict archive)).
Proof.
  intros [Hnd Hwf]. rewrite archive_dict_NoDup by assumption. split.
  - now rewrite dict_keys_map_values.
  - clear Hnd. induction archive as [|[k entry] archive IH]; simpl; [exact I|].
    split.
    + apply entry_dict_wf, (Hwf k). left.
    + apply IH. intros k' entry' H. apply (Hwf k'). now right.
Qed.

(** C9: persisting an archive and reloading the document gives back, key
    by key and in the same order, the entries of the archive: the reloaded
    value is the dict of the entries' field maps, and under every key the
    reloaded [poetry], [packets], [style] and [generated_at] are those of
    the entry in memory. *)
Theorem save_then_load_roundtrip archive io doc :
  archive_wf archive ->
  (save_archive archive io).1 = Some doc ->
  json_load doc = PyDict (map (fun item => (item.1, entry_dict item.2)) archive)
  /\ forall k entry,
       dict_get k archive = Some entry ->
       exists fields,
         py_getitem (json_load doc) k = Some (PyDict fields)
         /\ dict_get "poetry" fields = Some (PyStr (PoetryArchiveEntry.poetry entry))
         /\ dict_get "packets" fields
            = Some (PyList (map PyDict (PoetryArchiveEntry.packets entry)))
         /\ dict_get "style" fields = Some (PyStr (PoetryArchiveEntry.style entry))
         /\ dict_get "generated_at" fields
            = Some (PyStr (PoetryArchiveEntry.generated_at entry)).
Proof.
  intros Hwf Hsave.
  assert (json_load doc = PyDict (map (fun item => (item.1, entry_dict item.2)) archive))
    as Hload.
  { unfold save_archive in Hsave. destruct io as [[]|e]; [|discriminate].
    change (Some (json_dump (PyDict (archive_dict archive))) = Some doc) in Hsave.
    injection Hsave as <-.
    change (json_load (json_dump (PyDict (archive_dict archive)))
            = PyDict (map (fun item => (item.1, entry_dict item.2)) archive)).
    rewrite json_load_dump by now apply archive_dict_wf.
    rewrite archive_dict_NoDup by apply Hwf. reflexivity. }
  split; [exact Hload|].
  intros k entry Hget. rewrite Hload. simpl.
  rewrite dict_get_map_values, Hget. simpl.
  eexists. split; [reflexivity|]. repeat split.
Qed.

(** The theorem at an archive with one entry of five UDP records. *)
Lemma save_then_load_roundtrip_witness :
  json_load (json_dump (PyDict (archive_dict [(noon, entry_udp6)])))
  = PyDict (map (fun item => (item.1, entry_dict item.2)) [(noon, entry_udp6)])
  /\ forall k entry,
       dict_get k [(noon, entry_udp6)] = Some entry ->
       exists fields,
         py_getitem (json_load (json_dump (PyDict (archive_dict [(noon, entry_udp6)])))) k
         = Some (PyDict fields)
         /\ dict_get "poetry" fields = Some (PyStr (PoetryArchiveEntry.poetry entry))
         /\ dict_get "packets" fields
            = Some (PyList (map PyDict (PoetryArchiveEntry.packets entry)))
         /\ dict_get "style" fields = Some (PyStr (PoetryArchiveEntry.style entry))
         /\ dict_get "generated_at" fields
            = Some (PyStr (PoetryArchiveEntry.generated_at entry)).
Proof.
  apply (save_then_load_roundtrip [(noon, entry_udp6)] (Ok ())).
  - split.
    + apply (bool_decide_unpack _). vm_compute. exact I.
    + intros k entry H. apply list_elem_of_singleton in H. injection H as -> ->.
      apply (buffer_vars_wf (replicate 5 udp6_record)).
  - reflexivity.
Defined.

(** C10: in every state the pipeline reaches, each entry of the archive is
    stored under its own [generated_at]; every step keeps it so; and the
    document [save_archive] writes maps each key to an object whose
    [generated_at] member is that key. *)
Theorem archive_keys_consistent style s :
  reachable style s ->
  keys_consistent (poetry_archive s)
  /\ (forall e s', step style s e s' -> keys_consistent (poetry_archive s'))
  /\ (forall io doc,
        (save_archive (poetry_archive s) io).1 = Some doc -> json_keys_consistent doc).
Proof.
  intros Hreach. split; [apply invariant_reachable in Hreach; apply Hreach|]. split.
  - intros e s' Hstep.
    apply (reachable_step style s e s') in Hreach; [|exact Hstep].
    apply invariant_reachable in Hreach. apply Hreach.
  - intros io doc Hsave. apply invariant_reachable in Hreach as ((Hnd & _) & Hkeys & _).
    unfold save_archive in Hsave. destruct io as [[]|e]; [|discriminate].
    change (Some (json_dump (PyDict (archive_dict (poetry_archive s)))) = Some doc)
      in Hsave.
    injection Hsave as <-. rewrite archive_dict_NoDup by assumption. simpl.
    eexists. split; [reflexivity|].
    intros k j Hin. rewrite map_map in Hin. simpl in Hin.
    apply list_elem_of_fmap in Hin as ([k' entry] & [= -> ->] & Hin). simpl.
    eexists. split; [reflexivity|]. simpl.
    now rewrite (Hkeys _ _ Hin).
Qed.

(** The theorem at the state after the first drain. *)
Lemma archive_keys_consistent_witness :
  keys_consistent
    (poetry_archive (state_after PESSOA (first_drain ++ [Resume poem noon])))
  /\ (forall e s',
        step PESSOA (state_after PESSOA (first_drain ++ [Resume poem noon])) e s' ->
        keys_consistent (poetry_archive s'))
  /\ (forall io doc,
        (save_archive
           (poetry_archive (state_after PESSOA (first_drain ++ [Resume poem noon]))) io).1
        = Some doc ->
        json_keys_consistent doc).
Proof.
  apply (archive_keys_consistent PESSOA).
  exists (replicate 5 (Appended bare_record)
          ++ [Dispatched (replicate 5 bare_record)
                (craft_prompt (replicate 5 bare_record) PESSOA);
              Archived entry_bare]).
  apply (perform_all_run PESSOA init (first_drain ++ [Resume poem noon])). reflexivity.
Defined.

(** * Further properties of the pipeline *)

(** ** Every record is drained once *)

(** What one step does to the buffer and to the archive. *)
Lemma step_effect style s e s' :
  step style s e s' ->
  map vars (packet_buffer s) ++ map vars (appended [e])
  = archived_packets [e] ++ map vars (packet_buffer s')
  /\ poetry_archive s'
     = match e with
       | Archived entry =>
           dict_set (PoetryArchiveEntry.generated_at entry) entry (poetry_archive s)
       | _ => poetry_archive s
       end.
Proof.
  intros [s0 packet now Hrun | s0 Hrun Hc | s0 prompt outcome now_iso Hrun Hc
         | s0 io Hrun].
  - unfold producer_iteration.
    destruct (extract_packet_data packet now) as [[r|] logs]; simpl.
    + now rewrite map_app.
    + now rewrite app_nil_r.
  - unfold consumer_wakeup.
    destruct (threshold <=? length (packet_buffer s0))%nat; simpl;
      now rewrite app_nil_r.
  - rewrite consumer_resume_spec. simpl. now rewrite !app_nil_r.
  - unfold shutdown. destruct (save_archive (poetry_archive s0) io); simpl.
    now rewrite app_nil_r.
Qed.

Lemma appended_app tr tr' : appended (tr ++ tr') = appended tr ++ appended tr'.
Proof.
  induction tr as [|e tr IH]; [reflexivity|].
  destruct e; simpl; now rewrite IH.
Qed.

Lemma run_conservation style s tr s' :
  run style s tr s' ->
  map vars (packet_buffer s) ++ map vars (appended tr)
  = archived_packets tr ++ map vars (packet_buffer s').
Proof.
  induction 1 as [s|s e s1 tr s2 Hstep Hrun IH].
  - simpl. now rewrite app_nil_r.
  - apply step_effect in Hstep as [Hbuf _].
    change (e :: tr) with ([e] ++ tr). rewrite appended_app, map_app, app_assoc, Hbuf.
    rewrite <- app_assoc, IH.
    destruct e; simpl; rewrite ?app_nil_r, ?app_assoc; reflexivity.
Qed.

(** X1: no record is lost or archived twice. In every run from the start,
    the records the producer appended, in order of arrival, are exactly the
    packets of the archived entries, drain after drain, followed by what is
    still in the buffer. *)
Theorem records_drained_once style tr s :
  run style init tr s ->
  map vars (appended tr) = archived_packets tr ++ map vars (packet_buffer s).
Proof. intros H. now apply run_conservation in H. Qed.

(** The theorem on the run where a sixth record arrives during the generation. *)
Lemma records_drained_once_witness :
  map vars (appended (events_after PESSOA race_schedule))
  = archived_packets (events_after PESSOA race_schedule)
    ++ map vars (packet_buffer (state_after PESSOA race_schedule)).
Proof.
  apply (records_drained_once PESSOA).
  apply (perform_all_run PESSOA init race_schedule). vm_compute. reflexivity.
Defined.

(** ** The archive holds the latest entry of each timestamp *)

Lemma run_archive_lookup style s tr s' k :
  run style s tr s' ->
  dict_get k (poetry_archive s')
  = match last_archived k tr with
    | Some entry => Some entry
    | None => dict_get k (poetry_archive s)
    end.
Proof.
  induction 1 as [s|s e s1 tr s2 Hstep Hrun IH]; [reflexivity|].
  rewrite IH. simpl. destruct (last_archived k tr) as [entry|]; [reflexivity|].
  apply step_effect in Hstep as [_ Ha]. rewrite Ha.
  destruct e as [| | | |entry|]; try reflexivity.
  destruct (String.eqb_spec (PoetryArchiveEntry.generated_at entry) k) as [<-|Hne].
  - apply dict_get_set_eq.
  - now apply dict_get_set_ne.
Qed.

(** X2: looking a timestamp up in the archive gives the entry of the last
    drain that got this timestamp, and nothing if no drain did: entries
    stay until a later drain with the same timestamp replaces them, and no
    other step touches them. *)
Theorem archive_holds_latest style tr s k :
  run style init tr s ->
  dict_get k (poetry_archive s) = last_archived k tr.
Proof.
  intros H. rewrite (run_archive_lookup style init tr s k H).
  now destruct (last_archived k tr).
Qed.

(** The theorem on two drains that get the same timestamp. *)
Lemma archive_holds_latest_witness :
  dict_get noon (poetry_archive (state_after PESSOA colliding_drains))
  = last_archived noon (events_after PESSOA colliding_drains).
Proof.
  apply (archive_holds_latest PESSOA).
  apply (perform_all_run PESSOA init colliding_drains). vm_compute. reflexivity.
Defined.

Example colliding_drains_latest :
  last_archived noon (events_after PESSOA colliding_drains) = Some entry_udp6
  /\ length (poetry_archive (state_after PESSOA colliding_drains)) = 1.
Proof. split; reflexivity. Qed.

(** ** The shape of the archived entries *)

Lemma entry_shape_step style s e s' :
  step style s e s' -> invariant s ->
  (forall k entry, (k, entry) ∈ poetry_archive s -> entry_shape style entry) ->
  forall k entry, (k, entry) ∈ poetry_archive s' -> entry_shape style entry.
Proof.
  intros Hstep (_ & _ & Hlen) Hshape k entry.
  pose proof (step_effect style s e s' Hstep) as [_ Ha]. rewrite Ha.
  destruct e as [| | | |new|]; try apply Hshape.
  intros Hin. apply elem_of_dict_set in Hin as [[_ ->] | Hin]; [|eapply Hshape, Hin].
  apply step_Archived in Hstep as (prompt & outcome & now_iso & Hc & _ & Hstep).
  rewrite consumer_resume_spec in Hstep. injection Hstep as _ ->.
  repeat split; simpl.
  - rewrite length_map. eapply Hlen, Hc.
  - now exists (packet_buffer s).
Qed.

Lemma entry_shape_run style s tr s' :
  run style s tr s' -> invariant s ->
  (forall k entry, (k, entry) ∈ poetry_archive s -> entry_shape style entry) ->
  forall k entry, (k, entry) ∈ poetry_archive s' -> entry_shape style entry.
Proof.
  induction 1 as [s|s e s1 tr s2 Hstep Hrun IH]; [auto|].
  intros Hinv Hshape. apply IH.
  - eapply invariant_step; eassumption.
  - eapply entry_shape_step; eassumption.
Qed.

(** X3: every entry the pipeline has archived carries the style of the
    run, and its packets are the field maps of at least 5 records: no poem
    is archived for fewer packets than the threshold. *)
Theorem archived_entries_shape style tr s k entry :
  run style init tr s ->
  (k, entry) ∈ poetry_archive s ->
  entry_shape style entry.
Proof.
  intros Hrun. eapply entry_shape_run; [exact Hrun | apply invariant_init |].
  intros k' entry' Hin. inversion Hin.
Qed.

(** The theorem at the entry left by two drains with the same timestamp. *)
Lemma archived_entries_shape_witness : entry_shape PESSOA entry_udp6.
Proof.
  apply (archived_entries_shape PESSOA (events_after PESSOA colliding_drains)
           (state_after PESSOA colliding_drains) noon).
  - apply (perform_all_run PESSOA init colliding_drains). vm_compute. reflexivity.
  - vm_compute. left.
Defined.

(** ** Shutdown *)






(** ** What the saved document holds *)

Lemma run_app_inv style s tr tr' s' :
  run style s (tr ++ tr') s' -> exists s1, run style s tr s1 /\ run style s1 tr' s'.
Proof.
  revert s. induction tr as [|e tr IH]; simpl; intros s H.
  - exists s. split; [constructor | exact H].
  - inversion H as [|s0 e0 s1 tr0 s2 Hstep Hrun]; subst.
    destruct (IH s1 Hrun) as (s3 & H1 & H2).
    exists s3. split; [econstructor; eassumption | exact H2].
Qed.

Lemma step_Saved style s artifact s' :
  step style s (Saved artifact) s' ->
  exists io, artifact = (save_archive (poetry_archive s) io).1.
Proof.
  intros H. apply step_perform in H as [a H]. unfold perform in H.
  destruct (running s); [|discriminate].
  destruct a as [packet now | | outcome now_iso | io];
    destruct (consumer s) as [|prompt]; try discriminate;
    try (unfold producer_iteration, consumer_wakeup in H;
         repeat case_match; simplify_eq; fail);
    try (rewrite consumer_resume_spec in H; simplify_eq; fail);
    exists io; unfold shutdown in H;
    destruct (save_archive (poetry_archive s) io); now simplify_eq.
Qed.

(** X5: what is on disk after a run that ends with a successful save:
    reloading the document and looking a timestamp up gives the fields of
    the entry of the last drain that got this timestamp, and nothing for a
    timestamp no drain got. *)
Theorem saved_document_holds_latest style tr doc s k :
  run style init (tr ++ [Saved (Some doc)]) s ->
  py_getitem (json_load doc) k = entry_dict <$> last_archived k tr.
Proof.
  intros Hrun. apply run_app_inv in Hrun as (s1 & Hrun & Hlast).
  inversion Hlast as [|s0 e0 s2 tr0 s3 Hstep _]; subst.
  apply step_Saved in Hstep as [io Hdoc].
  pose proof (invariant_run style init tr s1 Hrun invariant_init) as (Hwf & _).
  unfold save_archive in Hdoc. destruct io as [[]|e]; [|discriminate].
  change (Some doc = Some (json_dump (PyDict (archive_dict (poetry_archive s1)))))
    in Hdoc.
  assert (doc = json_dump (PyDict (archive_dict (poetry_archive s1)))) as ->
    by congruence.
  rewrite json_load_dump by now apply archive_dict_wf.
  rewrite archive_dict_NoDup by apply Hwf. simpl.
  rewrite dict_get_map_values, (run_archive_lookup style init tr s1 k Hrun).
  now destruct (last_archived k tr).
Qed.

(** The theorem on the two colliding drains followed by a successful save. *)
Lemma saved_document_holds_latest_witness :
  py_getitem
    (json_load
       (json_dump
          (PyDict (archive_dict (poetry_archive (state_after PESSOA colliding_drains))))))
    noon
  = entry_dict <$> last_archived noon (events_after PESSOA colliding_drains).
Proof.
  apply (saved_document_holds_latest PESSOA (events_after PESSOA colliding_drains) _
           (state_after PESSOA (colliding_drains ++ [Stop (Ok ())]))).
  apply (perform_all_run PESSOA init (colliding_drains ++ [Stop (Ok ())])).
  vm_compute. reflexivity.
Defined.

(** ** Where the fields of a record come from *)

Lemma read_ports_Ok_inv proto layer tf :
  read_ports proto layer = Ok tf ->
  exists sp dp ps pd,
    assoc "srcport" layer = Some sp /\ py_int sp = Ok ps
    /\ assoc "dstport" layer = Some dp /\ py_int dp = Ok pd
    /\ tf = mk_transport proto (Some ps) (Some pd) (assoc "flags" layer).
Proof.
  unfold read_ports, getattr, getattr_default. intros H.
  destruct (assoc "srcport" layer) as [sp|]; [|discriminate].
  apply bind_Ok_inv in H as (ps & Hps & H).
  destruct (assoc "dstport" layer) as [dp|]; [|discriminate].
  apply bind_Ok_inv in H as (pd & Hpd & [= <-]).
  exists sp, dp, ps, pd. auto.
Qed.

(** X6: every field of an extracted record is read from the packet: the
    timestamp is the clock, the length is the integer of the length field,
    the addresses are those of the network layer when there is one, and
    with a resolved transport layer the protocol is its label, the ports
    are the integers of its port fields and the flags are its flags field
    (absent when the layer has none). A success logs nothing. *)
Theorem extracted_fields_provenance packet now r logs :
  extract_packet_data packet now = (Some r, logs) ->
  logs = []
  /\ PacketData.timestamp r = now
  /\ (exists s, Packet.length packet = Some s /\ py_int s = Ok (PacketData.length r))
  /\ (forall l, Packet.ip packet = Some l ->
        assoc "src" l = Some (PacketData.src_ip r)
        /\ assoc "dst" l = Some (PacketData.dest_ip r))
  /\ (forall proto layer, resolved_layer packet proto layer ->
        PacketData.protocol r = proto
        /\ PacketData.flags r = assoc "flags" layer
        /\ exists sp dp ps pd,
             assoc "srcport" layer = Some sp /\ py_int sp = Ok ps
             /\ PacketData.port_src r = Some ps
             /\ assoc "dstport" layer = Some dp /\ py_int dp = Ok pd
             /\ PacketData.port_dst r = Some pd).
Proof.
  intros H.
  assert (logs = []) as ->.
  { unfold extract_packet_data in H. destruct (extract_body packet now); now simplify_eq. }
  split; [reflexivity|].
  apply (f_equal fst) in H. simpl in H.
  apply extract_packet_data_Some in H as (addresses & len & tf & Ha & Hl & Ht & ->).
  split; [reflexivity|]. split; [|split].
  - unfold read_length in Hl. destruct (Packet.length packet) as [s|]; [eauto | discriminate].
  - intros l Hip. unfold read_addresses, getattr in Ha. rewrite Hip in Ha.
    destruct (assoc "src" l) as [a|]; [|discriminate].
    destruct (assoc "dst" l) as [b|]; [|discriminate].
    now injection Ha as <-.
  - intros proto layer (Hlabel & Hne & Hlayer).
    unfold read_transport in Ht. rewrite Hlabel, Hlayer in Ht.
    rewrite decide_False in Ht by assumption.
    apply read_ports_Ok_inv in Ht as (sp & dp & ps & pd & Hsp & Hps & Hdp & Hpd & ->).
    simpl. repeat split. exists sp, dp, ps, pd. auto 10.
Qed.

(** The theorem at a TCP segment over IPv4. *)
Lemma extracted_fields_provenance_witness :
  @nil log_record = []
  /\ PacketData.timestamp tcp4_record = t0
  /\ (exists s, Packet.length tcp4_packet = Some s
                /\ py_int s = Ok (PacketData.length tcp4_record))
  /\ (forall l, Packet.ip tcp4_packet = Some l ->
        assoc "src" l = Some (PacketData.src_ip tcp4_record)
        /\ assoc "dst" l = Some (PacketData.dest_ip tcp4_record))
  /\ (forall proto layer, resolved_layer tcp4_packet proto layer ->
        PacketData.protocol tcp4_record = proto
        /\ PacketData.flags tcp4_record = assoc "flags" layer
        /\ exists sp dp ps pd,
             assoc "srcport" layer = Some sp /\ py_int sp = Ok ps
             /\ PacketData.port_src tcp4_record = Some ps
             /\ assoc "dstport" layer = Some dp /\ py_int dp = Ok pd
             /\ PacketData.port_dst tcp4_record = Some pd).
Proof.
  apply (extracted_fields_provenance tcp4_packet t0 tcp4_record []). reflexivity.
Defined.

(** ** A malformed packet *)

(** X7: a packet that cannot be read never stops or disturbs the pipeline:
    the capture loop takes its step, which leaves the buffer, the archive
    and the consumer as they were, keeps the pipeline running and adds one
    error record to the log. *)
Theorem malformed_packet_is_skipped style s packet now :
  running s = true ->
  extraction_failure packet ->
  exists e s',
    producer_iteration s packet now = (s', Dropped)
    /\ step style s Dropped s'
    /\ packet_buffer s' = packet_buffer s
    /\ poetry_archive s' = poetry_archive s
    /\ consumer s' = consumer s
    /\ running s' = true
    /\ log s' = log s ++ [LogError "Error extracting packet data: " e].
Proof.
  intros Hrun Hfail.
  pose proof (step_producer style s packet now Hrun) as Hstep.
  destruct (extract_packet_data_cases packet now) as [[_ [e He]] | [Hok _]]; [|tauto].
  unfold producer_iteration in *. rewrite He in *. simpl in Hstep.
  exists e. eexists. split; [reflexivity|]. split; [exact Hstep|]. simpl. auto.
Qed.

(** The theorem at a segment with a bad port, while a batch is in flight. *)
Lemma malformed_packet_is_skipped_witness :
  exists e s',
    producer_iteration five_in_flight bad_port_packet t0 = (s', Dropped)
    /\ step PESSOA five_in_flight Dropped s'
    /\ packet_buffer s' = packet_buffer five_in_flight
    /\ poetry_archive s' = poetry_archive five_in_flight
    /\ consumer s' = consumer five_in_flight
    /\ running s' = true
    /\ log s' = log five_in_flight ++ [LogError "Error extracting packet data: " e].
Proof.
  apply (malformed_packet_is_skipped PESSOA five_in_flight bad_port_packet t0).
  - reflexivity.
  - apply (fail_port bad_port_packet "TCP"
             [("srcport", "http"); ("dstport", "80"); ("flags", "0x0010")]).
    + repeat split. discriminate.
    + left. reflexivity.
Defined.

(** ** The style shows in the prompt *)

(** X8: the prompt tells the style: whatever the batches, prompts built
    for two different styles differ (already in their preambles). *)
Theorem craft_prompt_style_distinct packets packets' style style' :
  style <> style' -> craft_prompt packets style <> craft_prompt packets' style'.
Proof.
  intros Hne H. apply (f_equal (substring 0 32)) in H.
  destruct style, style'; try (now apply Hne); vm_compute in H; discriminate H.
Qed.

(** The theorem at two batches under two styles. *)
Lemma craft_prompt_style_distinct_witness :
  craft_prompt [bare_record] PESSOA <> craft_prompt [udp6_record] WHITMAN.
Proof. apply craft_prompt_style_distinct. discriminate. Defined.

(** ** The poem is trimmed *)
















(** ** Integers printed and read back *)











(** ** Counting drains *)

Lemma step_in_flight style s e s' :
  step style s e s' ->
  (if is_dispatched e then 1 else 0) + in_flight s
  = (if is_archived e then 1 else 0) + in_flight s'.
Proof.
  intros [s0 packet now Hrun | s0 Hrun Hc | s0 prompt outcome now_iso Hrun Hc
         | s0 io Hrun]; unfold in_flight.
  - unfold producer_iteration.
    now destruct (extract_packet_data packet now) as [[r|] logs].
  - unfold consumer_wakeup. rewrite Hc.
    destruct (threshold <=? length (packet_buffer s0))%nat; simpl; [reflexivity|].
    now rewrite Hc.
  - rewrite consumer_resume_spec. simpl. now rewrite Hc.
  - unfold shutdown. now destruct (save_archive (poetry_archive s0) io).
Qed.

Lemma run_in_flight style s tr s' :
  run style s tr s' ->
  length (List.filter is_dispatched tr) + in_flight s
  = length (List.filter is_archived tr) + in_flight s'.
Proof.
  induction 1 as [s|s e s1 tr s2 Hstep Hrun IH]; [reflexivity|].
  apply step_in_flight in Hstep. simpl.
  destruct (is_dispatched e), (is_archived e); simpl in *; lia.
Qed.

(** X11: every dispatched batch gets archived, one at a time: in a run
    from the start the number of dispatches is the number of archived
    entries, plus one when a generation is in flight at the end. *)
Theorem dispatches_are_archived style tr s :
  run style init tr s ->
  length (List.filter is_dispatched tr)
  = length (List.filter is_archived tr) + in_flight s.
Proof.
  intros H. apply run_in_flight in H. change (in_flight init) with 0 in H. lia.
Qed.

(** The theorem on two drains and a third batch in flight. *)
Lemma dispatches_are_archived_witness :
  length (List.filter is_dispatched (events_after PESSOA (colliding_drains ++ first_drain)))
  = length (List.filter is_archived (events_after PESSOA (colliding_drains ++ first_drain)))
    + in_flight (state_after PESSOA (colliding_drains ++ first_drain)).
Proof.
  apply (dispatches_are_archived PESSOA).
  apply (perform_all_run PESSOA init (colliding_drains ++ first_drain)).
  vm_compute. reflexivity.
Defined.

Lemma run_archived_at_least style s tr s' :
  run style s tr s' -> invariant s ->
  threshold * length (List.filter is_archived tr) <= length (archived_packets tr).
Proof.
  induction 1 as [s|s e s1 tr s2 Hstep Hrun IH]; intros Hinv; [simpl; lia|].
  specialize (IH (invariant_step style s e s1 Hstep Hinv)).
  destruct e as [| | | |entry|]; cbn [List.filter is_archived archived_packets];
    try exact IH.
  apply step_Archived in Hstep as (prompt & outcome & now_iso & Hc & _ & Hstep).
  rewrite consumer_resume_spec in Hstep. injection Hstep as _ ->.
  destruct Hinv as (_ & _ & Hlen). specialize (Hlen prompt Hc).
  cbn [PoetryArchiveEntry.packets length]. rewrite length_app, length_map.
  unfold threshold in *. lia.
Qed.

(** X12: the pipeline makes at most one poem for every five records: in a
    run from the start, five times the number of archived entries is at
    most the number of records the producer appended. *)
Theorem one_poem_per_threshold style tr s :
  run style init tr s ->
  threshold * length (List.filter is_archived tr) <= length (appended tr).
Proof.
  intros H.
  pose proof (run_archived_at_least style init tr s H invariant_init) as Hle.
  apply run_conservation in H. apply (f_equal length) in H.
  rewrite !length_app, !length_map in H. change (length (packet_buffer init)) with 0 in H.
  unfold threshold in *. lia.
Qed.

(** The theorem on the run where a sixth record arrives during the generation. *)
Lemma one_poem_per_threshold_witness :
  threshold * length (List.filter is_archived (events_after PESSOA race_schedule))
  <= length (appended (events_after PESSOA race_schedule)).
Proof.
  apply (one_poem_per_threshold PESSOA _ (state_after PESSOA race_schedule)).
  apply (perform_all_run PESSOA init race_schedule). vm_compute. reflexivity.
Defined.
